(** * niworkflows.interfaces.nibabel: ApplyMask, Binarize, SplitSeries, MergeSeries

    A shallow embedding of [niworkflows/interfaces/nibabel.py].  The four
    [_run_interface] methods are written in a small state-and-exception
    monad over a world made of the file system and the interface's
    [_results] dictionary.  The numpy and nibabel primitives the methods
    call ([nb.load], [nb.squeeze_image], [nb.four_to_three],
    [nb.concat_images], [np.allclose], array comparison, broadcasting
    product, masked assignment) are modelled on C-ordered flat arrays.
    Voxels are exact; what nibabel's array writer does to an array that the
    header's dtype tag cannot hold as it is, is a parameter ([ArrayWriter]). *)

From Stdlib Require Import ZArith QArith Qabs Qround Qminmax.
From Stdlib Require Import List Bool Arith Lia.
From Stdlib Require Import Ascii DecimalString DecimalNat.
From stdpp Require Import base option list strings gmap.

Local Open Scope string_scope.
Local Open Scope list_scope.
Local Open Scope nat_scope.

(** ** Scalars

    A float64 voxel: a finite value (an exact rational; rounding is outside
    the model) or one of the IEEE special values. *)

Inductive float64 : Type :=
| Fin (q : Q)
| PInf
| NInf
| NaN.

Definition of_bool (b : bool) : float64 := Fin (if b then 1%Q else 0%Q).

(** [x > y] on floats: every comparison with NaN is false. *)
Definition fgt (x y : float64) : bool :=
  match x, y with
  | NaN, _ | _, NaN => false
  | Fin a, Fin b => negb (Qle_bool a b)
  | Fin _, PInf => false
  | Fin _, NInf => true
  | PInf, PInf => false
  | PInf, _ => true
  | NInf, _ => false
  end.

(** [x * y] on floats: an infinity times zero is NaN. *)
Definition fmul (x y : float64) : float64 :=
  match x, y with
  | NaN, _ | _, NaN => NaN
  | Fin a, Fin b => Fin (a * b)
  | Fin a, PInf | PInf, Fin a =>
      match (a ?= 0)%Q with Eq => NaN | Gt => PInf | Lt => NInf end
  | Fin a, NInf | NInf, Fin a =>
      match (a ?= 0)%Q with Eq => NaN | Gt => NInf | Lt => PInf end
  | PInf, PInf | NInf, NInf => PInf
  | PInf, NInf | NInf, PInf => NInf
  end.



(** ** n-dimensional arrays, C order *)

Record ndarray (A : Type) : Type := mk_ndarray {
  shape : list nat;
  flat : list A
}.
Arguments mk_ndarray {A} _ _.
Arguments shape {A} _.
Arguments flat {A} _.

Definition ndim {A} (a : ndarray A) : nat := length (shape a).

(** [np.prod(shape)] *)
Definition size_of (s : list nat) : nat := fold_right Nat.mul 1 s.

Definition wf_array {A} (a : ndarray A) : Prop :=
  length (flat a) = size_of (shape a).

(** [np.ravel_multi_index] and [np.unravel_index]. *)
Fixpoint ravel (s idx : list nat) : nat :=
  match s, idx with
  | _ :: s', i :: idx' => i * size_of s' + ravel s' idx'
  | _, _ => 0
  end.

Fixpoint unravel (s : list nat) (n : nat) : list nat :=
  match s with
  | [] => []
  | _ :: s' => (n / size_of s') :: unravel s' (n mod size_of s')
  end.

(** [idx] is a valid multi-index into an array of shape [s]. *)
Definition in_bounds (s idx : list nat) : Prop := Forall2 lt idx s.

(** [a[idx]] *)
Definition item {A} (a : ndarray A) (idx : list nat) : option A :=
  flat a !! ravel (shape a) idx.

(** [a > t] *)
Definition greater (a : ndarray float64) (t : float64) : ndarray bool :=
  mk_ndarray (shape a) ((fun x => fgt x t) <$> flat a).

(** [~m] *)
Definition invert (m : ndarray bool) : ndarray bool :=
  mk_ndarray (shape m) (negb <$> flat m).

(** [data[cond] = v] for a boolean [cond] of the shape of [data]. *)
Definition putmask (data : ndarray float64) (cond : ndarray bool) (v : float64)
  : ndarray float64 :=
  mk_ndarray (shape data)
    (zip_with (fun x (c : bool) => if c then v else x) (flat data) (flat cond)).

(** [m.astype('uint8')] of a boolean array: the values 0 and 1. *)
Definition astype_uint8 (m : ndarray bool) : ndarray float64 :=
  mk_ndarray (shape m) (of_bool <$> flat m).

(** [m[..., np.newaxis]] *)
Definition newaxis {A} (m : ndarray A) : ndarray A :=
  mk_ndarray (shape m ++ [1]) (flat m).

(** [a.reshape(s)] keeps the C-ordered elements. *)
Definition reshape {A} (a : ndarray A) (s : list nat) : ndarray A :=
  mk_ndarray s (flat a).

(** numpy broadcasting of two shapes aligned on their trailing axes; the
    arguments of [broadcast_rev] are the reversed shapes. *)
Definition broadcast_dim (d1 d2 : nat) : option nat :=
  if d1 =? d2 then Some d1
  else if d1 =? 1 then Some d2
  else if d2 =? 1 then Some d1
  else None.

Fixpoint broadcast_rev (r1 r2 : list nat) : option (list nat) :=
  match r1, r2 with
  | [], r => Some r
  | r, [] => Some r
  | d1 :: t1, d2 :: t2 =>
      match broadcast_dim d1 d2, broadcast_rev t1 t2 with
      | Some d, Some t => Some (d :: t)
      | _, _ => None
      end
  end.

Definition broadcast_shapes (s1 s2 : list nat) : option (list nat) :=
  @rev nat <$> broadcast_rev (rev s1) (rev s2).

(** The index into an operand of shape [s] that the output index [I] reads:
    the trailing [length s] components, with 0 on the axes of length 1. *)
Definition bcast_index (s I : list nat) : list nat :=
  zip_with (fun d i => if d =? 1 then 0 else i) s (drop (length I - length s) I).

(** ** Exceptions *)

Inductive exn : Type :=
| ValueError (msg : string)
| RuntimeError (msg : string)
| NameError (msg : string)
| TypeError (msg : string)
| FileNotFoundError (msg : string).

(** [a * m] for a float array and a boolean array, with broadcasting. *)
Definition multiply (a : ndarray float64) (m : ndarray bool) : exn + ndarray float64 :=
  match broadcast_shapes (shape a) (shape m) with
  | None => inl (ValueError "operands could not be broadcast together")
  | Some s =>
      inr (mk_ndarray s
             ((fun n =>
                 let I := unravel s n in
                 fmul (default NaN (item a (bcast_index (shape a) I)))
                      (of_bool (default false (item m (bcast_index (shape m) I)))))
                <$> seq 0 (size_of s)))
  end.

(** [image_data[..., i]] of an array whose last axis has length [t]. *)
Definition take_last_axis {A} (a : ndarray A) (t i : nat) : ndarray A :=
  mk_ndarray (take (ndim a - 1) (shape a))
    (omap (fun p => flat a !! (p * t + i)) (seq 0 (size_of (take (ndim a - 1) (shape a))))).

(** [np.rollaxis(out_data, 0, out_data.ndim)] of the stack of [n] arrays of
    shape [s]: element [idx ++ [i]] is element [idx] of the [i]-th array. *)
Definition stack_last {A} (s : list nat) (arrs : list (ndarray A)) : ndarray A :=
  mk_ndarray (s ++ [length arrs])
    (flat_map (fun p => omap (fun a => flat a !! p) arrs) (seq 0 (size_of s))).

(** ** Affines and [np.allclose] *)

(** A 4x4 affine, row by row. *)
Definition affine_t : Type := list Q.

Definition rtol : Q := 1 # 100000.
Definition atol : Q := 1 # 100000000.

(** [np.isclose(x, y)]: [|x - y| <= atol + rtol * |y|]. *)
Definition isclose (x y : Q) : bool :=
  Qle_bool (Qabs (x - y)) (atol + rtol * Qabs y).

Fixpoint all2 {A} (p : A -> A -> bool) (l1 l2 : list A) : bool :=
  match l1, l2 with
  | [], [] => true
  | x :: l1', y :: l2' => p x y && all2 p l1' l2'
  | _, _ => false
  end.

(** [np.allclose(a, b)] with numpy's default tolerances. *)
Definition allclose (a b : affine_t) : bool := all2 isclose a b.

(** [np.all(a == b)] *)
Definition all_equal (a b : affine_t) : bool := all2 Qeq_bool a b.

(** ** Images, headers and the file system *)

Inductive dtype : Type := uint8 | int16 | int32 | float32 | float64_.

#[global] Instance dtype_eq_dec : EqDecision dtype.
Proof. solve_decision. Defined.

(** [np.issubdtype(t, np.floating)] *)
Definition is_float_dtype (t : dtype) : bool :=
  match t with
  | float32 | float64_ => true
  | _ => false
  end.

(** The header: the on-disk dtype tag, the stored affine (what
    [get_best_affine] returns) and the remaining metadata, kept opaque.  The
    scale factors are not part of it: they go with the stored data (see
    [ArrayWriter]). *)
Record header : Type := mk_header {
  data_dtype : dtype;
  best_affine : affine_t;
  descrip : string
}.

(** [hdr.set_data_dtype(dt)] *)
Definition set_data_dtype (dt : dtype) (h : header) : header :=
  mk_header dt (best_affine h) (descrip h).

Definition set_best_affine (a : affine_t) (h : header) : header :=
  mk_header (data_dtype h) a (descrip h).

(** An in-memory image.  [arr_dtype] is the numpy dtype of the array the
    image holds, which need not be the header's dtype tag.  [img.affine] is
    [None] for an image built with [affine=None]. *)
Record image : Type := mk_image {
  dataobj : ndarray float64;
  arr_dtype : dtype;
  affine : option affine_t;
  hdr : header
}.

(** [img.get_fdata()]: the voxels, as an array of dtype float64. *)
Definition get_fdata (img : image) : ndarray float64 := dataobj img.

(** [SpatialImage.update_header]: a given affine that is not close to the
    header's replaces it. *)
Definition update_header (h : header) (aff : option affine_t) : header :=
  match aff with
  | None => h
  | Some a => if allclose a (best_affine h) then h else set_best_affine a h
  end.

(** [img.__class__(data, affine, header)] for an array [data] of dtype
    [dt]: the header is copied, and keeps its dtype tag. *)
Definition new_image (data : ndarray float64) (dt : dtype) (aff : option affine_t)
    (h : header) : image :=
  mk_image data dt aff (update_header h aff).

(** What a file holds: the header and the data. *)
Record nifti_file : Type := mk_file {
  f_hdr : header;
  f_data : ndarray float64
}.

(** A file name as [split_filename] sees it: directory, base name, extension. *)
Record path : Type := mk_path {
  p_dir : string;
  p_base : string;
  p_ext : string
}.

#[global] Instance path_eq_dec : EqDecision path.
Proof. solve_decision. Defined.

#[global] Instance path_countable : Countable path :=
  inj_countable'
    (fun p => (p_dir p, p_base p, p_ext p))
    (fun t => mk_path t.1.1 t.1.2 t.2)
    (fun p => match p with mk_path _ _ _ => eq_refl end).

(** [fname_presuffix(fname, suffix=suffix, newpath=newpath)] *)
Definition fname_presuffix (fname : path) (suffix : string) (newpath : option string)
  : path :=
  mk_path (default (p_dir fname) newpath) (p_base fname +:+ suffix) (p_ext fname).

(** A value stored in [self._results]. *)
Inductive rvalue : Type :=
| RStr (p : path)
| RList (l : list path).

Record world : Type := mk_world {
  fs : gmap path nifti_file;
  results : gmap string rvalue
}.

Record runtime_t : Type := mk_runtime { cwd : string }.

(** ** The state-and-exception monad *)

Definition M (A : Type) : Type := world -> (exn + A) * world.

Definition ret {A} (x : A) : M A := fun w => (inr x, w).

Definition bind {A B} (m : M A) (k : A -> M B) : M B :=
  fun w =>
    match m w with
    | (inl e, w') => (inl e, w')
    | (inr x, w') => k x w'
    end.

Definition raise {A} (e : exn) : M A := fun w => (inl e, w).

Definition lift {A} (r : exn + A) : M A := fun w => (r, w).

Declare Scope py_scope.
Delimit Scope py_scope with py.
Notation "x <~ m ;; k" := (bind m (fun x => k))
  (at level 100, m at next level, right associativity) : py_scope.
Notation "m ;;; k" := (bind m (fun _ => k))
  (at level 100, right associativity) : py_scope.
Local Open Scope py_scope.

(** [self._results[key] = v] *)
Definition set_result (key : string) (v : rvalue) : M unit :=
  fun w => (inr tt, mk_world (fs w) (<[key := v]> (results w))).

(** [self._results[key]] *)
Definition get_result (key : string) : M rvalue :=
  fun w =>
    match results w !! key with
    | Some v => (inr v, w)
    | None => (inl (TypeError "KeyError"), w)
    end.

(** [self._results[key].append(p)] *)
Definition append_result (key : string) (p : path) : M unit :=
  fun w =>
    match results w !! key with
    | Some (RList l) => (inr tt, mk_world (fs w) (<[key := RList (l ++ [p])]> (results w)))
    | _ => (inl (TypeError "no list to append to"), w)
    end.

(** The image a file holds: its affine is the header's, and its array has
    the dtype of the header's tag (the file carries no scale factors). *)
Definition image_of_file (f : nifti_file) : image :=
  mk_image (f_data f) (data_dtype (f_hdr f)) (Some (best_affine (f_hdr f))) (f_hdr f).

(** [nb.load(p)] *)
Definition nb_load (p : path) : M image :=
  fun w =>
    match fs w !! p with
    | Some f => (inr (image_of_file f), w)
    | None => (inl (FileNotFoundError "No such file or no access"), w)
    end.

(** ** Writing an image

    On writing, nibabel casts the array to the header's dtype tag
    ([nibabel.arraywriters]).  Under a floating tag, or under the tag of the
    array's own dtype, every voxel is stored as it is (the rounding of a
    float64 to float32 is outside the model, as all rounding is).  Under
    another tag the writer may have to rescale, and for a float64 array
    under an integer tag it does: the integers stored and the scale factors
    are computed from the range of the data, and what reads back is close to
    the array, not equal to it.  [scaled src tag a] stands for what reads
    back of the array [a] of dtype [src] written under [tag]; only its shape
    is known. *)
Class ArrayWriter : Type := {
  scaled : dtype -> dtype -> ndarray float64 -> ndarray float64;
  scaled_shape : forall src tag a, shape (scaled src tag a) = shape a;
  scaled_length : forall src tag a, length (flat (scaled src tag a)) = length (flat a)
}.

(** What reads back of an array of dtype [src] written under the tag [tag]. *)
Definition stored_as `{ArrayWriter} (src tag : dtype) (a : ndarray float64)
  : ndarray float64 :=
  if is_float_dtype tag || bool_decide (src = tag) then a else scaled src tag a.

(** The file that [img.to_filename] leaves. *)
Definition to_file `{ArrayWriter} (img : image) : nifti_file :=
  mk_file (hdr img) (stored_as (arr_dtype img) (data_dtype (hdr img)) (dataobj img)).

(** [img.to_filename(p)] *)
Definition to_filename `{ArrayWriter} (img : image) (p : path) : M unit :=
  fun w => (inr tt, mk_world (<[p := to_file img]> (fs w)) (results w)).

(** ** nibabel.funcs *)

Fixpoint drop_ones (r : list nat) : list nat :=
  match r with
  | 1 :: r' => drop_ones r'
  | _ => r
  end.

(** [nb.squeeze_image]: axes of length 1 are removed from the end of the
    shape, and only beyond the third axis.  The array keeps its dtype. *)
Definition squeeze_image (img : image) : image :=
  let s := shape (dataobj img) in
  if length s <? 4 then new_image (dataobj img) (arr_dtype img) (affine img) (hdr img)
  else
    let s' := take 3 s ++ rev (drop_ones (rev (drop 3 s))) in
    if length s' =? length s
    then new_image (dataobj img) (arr_dtype img) (affine img) (hdr img)
    else new_image (reshape (dataobj img) s') (arr_dtype img) (affine img) (hdr img).

(** [nb.four_to_three]: the slices keep the dtype of the array.  The axes
    counted are those of the stored shape (nibabel counts the axes of the
    array it reads, which has one axis only for a volume without a voxel
    read from a compressed file: a case the model does not follow). *)
Definition four_to_three (img : image) : exn + list image :=
  let image_data := dataobj img in
  if negb (ndim image_data =? 4) then inl (ValueError "Expecting four dimensions")
  else
    let t := nth 3 (shape image_data) 0 in
    inr ((fun i =>
            new_image (take_last_axis image_data t i) (arr_dtype img) (affine img)
              (hdr img))
           <$> seq 0 t).

(** [np.all(img.affine == affine)] *)
Definition affine_eq (a b : option affine_t) : bool :=
  match a, b with
  | Some x, Some y => all_equal x y
  | None, None => true
  | _, _ => false
  end.

Definition shape_eqb (s1 s2 : list nat) : bool := bool_decide (s1 = s2).

(** The three errors of [nb.concat_images]; the messages are abridged, the
    originals interpolate the image index and the shapes. *)
Definition concat_ndim_error : exn :=
  ValueError "Image has a different number of dimensions than image 0".
Definition concat_shape_error : exn :=
  ValueError "shape not compatible with first image shape".
Definition concat_affine_error : exn :=
  ValueError "Affine does not match affine for first image".

(** The checks [nb.concat_images] makes on each image against the first. *)
Fixpoint concat_check (img0 : image) (images : list image) : option exn :=
  match images with
  | [] => None
  | img :: rest =>
      if negb (ndim (dataobj img) =? ndim (dataobj img0)) then Some concat_ndim_error
      else if negb (shape_eqb (shape (dataobj img)) (shape (dataobj img0)))
      then Some concat_shape_error
      else if negb (affine_eq (affine img) (affine img0)) then Some concat_affine_error
      else concat_check img0 rest
  end.

(** [nb.concat_images(images)] with [check_affines=True], [axis=None].  The
    stack is filled into [np.empty(out_shape)], an array of dtype float64. *)
Definition concat_images (images : list image) : exn + image :=
  match images with
  | [] => inl (ValueError "Cannot concatenate an empty list of images.")
  | img0 :: _ =>
      match concat_check img0 images with
      | Some e => inl e
      | None =>
          inr (new_image (stack_last (shape (dataobj img0)) (dataobj <$> images))
                 float64_ (affine img0) (hdr img0))
      end
  end.

(** ** Names of the module *)

(** The names bound at module level by the imports, the assignment and the
    class statements of [nibabel.py]. *)
Definition module_globals : list string :=
  ["np"; "nb"; "logging"; "fname_presuffix"; "traits"; "TraitedSpec";
   "BaseInterfaceInputSpec"; "File"; "SimpleInterface"; "OutputMultiObject";
   "InputMultiObject"; "IFLOGGER";
   "_ApplyMaskInputSpec"; "_ApplyMaskOutputSpec"; "ApplyMask";
   "_BinarizeInputSpec"; "_BinarizeOutputSpec"; "Binarize";
   "_FourToThreeInputSpec"; "_FourToThreeOutputSpec"; "SplitSeries";
   "_MergeSeriesInputSpec"; "_MergeSeriesOutputSpec"; "MergeSeries"].

(** Evaluating a global name that is not a builtin. *)
Definition load_name (globals : list string) (name : string) : M unit :=
  if bool_decide (name ∈ globals) then ret tt
  else raise (NameError ("name '" +:+ name +:+ "' is not defined")).

(** [str(n)] and the format [{i:03}]. *)
Definition dec (n : nat) : string := NilEmpty.string_of_uint (Nat.to_uint n).

Fixpoint zeros (n : nat) : string :=
  match n with
  | 0 => ""
  | S n' => "0" +:+ zeros n'
  end.

Definition fmt03 (i : nat) : string :=
  zeros (3 - String.length (dec i)) +:+ dec i.

(** [Path(p).absolute()] in the working directory [wd]. *)
Definition absolute (wd : string) (p : path) : path :=
  if String.prefix "/" (p_dir p) then p
  else mk_path (wd +:+ "/" +:+ p_dir p) (p_base p) (p_ext p).

(** ** ApplyMask *)

Module ApplyMask.

Record inputs : Type := mk_inputs {
  in_file : path;
  in_mask : path;
  threshold : float64
}.

Definition sizes_error : exn := ValueError "Image and mask sizes do not match.".
Definition affines_error : exn :=
  ValueError "Image and mask affines are not similar enough.".

(** [np.allclose(img.affine, msknii.affine)] *)
Definition allclose_affines (a b : option affine_t) : exn + bool :=
  match a, b with
  | Some x, Some y => inr (allclose x y)
  | _, _ => inl (TypeError "unsupported operand type: NoneType")
  end.

(** [img.dataobj * msk] has the dtype of [img.dataobj]. *)
Definition _run_interface `{ArrayWriter} (self : inputs) (runtime : runtime_t)
  : M unit :=
  img <~ nb_load (in_file self);;
  msknii <~ nb_load (in_mask self);;
  let msk := greater (get_fdata msknii) (threshold self) in
  let out_file := fname_presuffix (in_file self) "_masked" (Some (cwd runtime)) in
  set_result "out_file" (RStr out_file);;;
  if negb (shape_eqb (take 3 (shape (dataobj img))) (shape msk))
  then raise sizes_error
  else
    close <~ lift (allclose_affines (affine img) (affine msknii));;
    if negb close then raise affines_error
    else
      let msk := if ndim (dataobj img) =? ndim msk + 1 then newaxis msk else msk in
      data <~ lift (multiply (dataobj img) msk);;
      let masked := new_image data (arr_dtype img) None (hdr img) in
      to_filename masked out_file.

End ApplyMask.

(** ** Binarize *)

Module Binarize.

Record inputs : Type := mk_inputs {
  in_file : path;
  thresh_low : float64
}.

(** [data] is the float64 array of [get_fdata]; the mask is written as an
    array of dtype uint8. *)
Definition _run_interface `{ArrayWriter} (self : inputs) (runtime : runtime_t)
  : M unit :=
  img <~ nb_load (in_file self);;
  let out_file := fname_presuffix (in_file self) "_masked" (Some (cwd runtime)) in
  let out_mask := fname_presuffix (in_file self) "_mask" (Some (cwd runtime)) in
  set_result "out_file" (RStr out_file);;;
  set_result "out_mask" (RStr out_mask);;;
  let data := get_fdata img in
  let mask := greater data (thresh_low self) in
  let data := putmask data (invert mask) (Fin 0) in
  let masked := new_image data float64_ (affine img) (hdr img) in
  to_filename masked out_file;;;
  let img :=
    mk_image (dataobj img) (arr_dtype img) (affine img)
      (set_data_dtype uint8 (hdr img)) in
  let maskimg := new_image (astype_uint8 mask) uint8 (affine img) (hdr img) in
  to_filename maskimg out_mask.

End Binarize.

(** ** SplitSeries *)

Module SplitSeries.

Record inputs : Type := mk_inputs {
  in_file : path;
  accept_3D : bool
}.

Definition dimension_error (n : nat) : exn :=
  RuntimeError ("Input image image is " +:+ dec n +:+ "D.").

(** The body of [for i, file_3d in enumerate(files_3d)], from index [i]. *)
Fixpoint write_frames `{ArrayWriter} (globals : list string) (in_file : path)
    (wd : string) (i : nat) (files_3d : list image) : M unit :=
  match files_3d with
  | [] => ret tt
  | file_3d :: rest =>
      load_name globals "Path";;;
      let out_file :=
        absolute wd (fname_presuffix in_file ("_idx-" +:+ fmt03 i) None) in
      to_filename file_3d out_file;;;
      append_result "out_files" out_file;;;
      write_frames globals in_file wd (S i) rest
  end.

(** The method, run with the global names [globals]. *)
Definition run_with `{ArrayWriter} (globals : list string) (self : inputs)
    (runtime : runtime_t) : M unit :=
  img <~ nb_load (in_file self);;
  let filenii := squeeze_image img in
  let n := ndim (dataobj filenii) in
  if negb (n =? 4) then
    if accept_3D self && (n =? 3) then
      load_name globals "Path";;;
      let out_file :=
        absolute (cwd runtime) (fname_presuffix (in_file self) "_idx-000" None) in
      set_result "out_files" (RStr out_file);;;
      to_filename filenii out_file
    else raise (dimension_error n)
  else
    files_3d <~ lift (four_to_three filenii);;
    set_result "out_files" (RList []);;;
    write_frames globals (in_file self) (cwd runtime) 0 files_3d.

(** The method as the module defines it. *)
Definition _run_interface `{ArrayWriter} : inputs -> runtime_t -> M unit :=
  run_with module_globals.

End SplitSeries.

(** ** MergeSeries *)

Module MergeSeries.

(** [in_files] is the list given to the [InputMultiObject] trait. *)
Record inputs : Type := mk_inputs {
  in_files : list path;
  allow_4D : bool
}.

Definition dimension_error (n : nat) : exn :=
  ValueError ("Input image has an incorrect number of dimensions (" +:+ dec n +:+ ").").

(** The loop [for f in self.inputs.in_files], with [nii_list] so far. *)
Fixpoint collect (allow : bool) (files : list path) (nii_list : list image)
  : M (list image) :=
  match files with
  | [] => ret nii_list
  | f :: rest =>
      filenii <~ nb_load f;;
      let filenii := squeeze_image filenii in
      if ndim (dataobj filenii) =? 3 then collect allow rest (nii_list ++ [filenii])
      else if allow && (ndim (dataobj filenii) =? 4) then
        frames <~ lift (four_to_three filenii);;
        collect allow rest (nii_list ++ frames)
      else raise (dimension_error (ndim (dataobj filenii)))
  end.

Definition undefined_error : exn :=
  TypeError "'_Undefined' object is not iterable".

(** Given an empty list the trait holds [Undefined], over which the loop
    cannot iterate. *)
Definition _run_interface `{ArrayWriter} (self : inputs) (runtime : runtime_t)
  : M unit :=
  match in_files self with
  | [] => raise undefined_error
  | f0 :: _ =>
      nii_list <~ collect (allow_4D self) (in_files self) [];;
      img_4d <~ lift (concat_images nii_list);;
      let out_file := fname_presuffix f0 "_merged" None in
      to_filename img_4d out_file;;;
      set_result "out_file" (RStr out_file)
  end.

End MergeSeries.

(** ** Vocabulary of the statements *)

(** The image's affine is the one stored in its header, as for every image
    that was loaded from a file. *)
Definition coherent (img : image) : Prop :=
  affine img = Some (best_affine (hdr img)).

(** The array has the dtype of the header's tag, as for every image that
    was loaded from a file. *)
Definition native (img : image) : Prop :=
  arr_dtype img = data_dtype (hdr img).


(** The frames [MergeSeries] accumulates for one loaded image. *)
Definition frames_from (allow : bool) (img : image) (frames : list image) : Prop :=
  let filenii := squeeze_image img in
  (ndim (dataobj filenii) = 3 /\ frames = [filenii]) \/
  (ndim (dataobj filenii) = 4 /\ allow = true /\ four_to_three filenii = inr frames).

(** The errors of [nb.concat_images] on images that do not go together. *)
Definition geometry_error (e : exn) : Prop :=
  e = concat_ndim_error \/ e = concat_shape_error \/ e = concat_affine_error.

(** [fr] is the frame of the 4-D volume [vol] at index [i] of its last axis:
    same header and affine, the first three axes, the voxels at [i]. *)
Definition slice_of (vol : image) (i : nat) (fr : image) : Prop :=
  hdr fr = hdr vol /\
  affine fr = affine vol /\
  shape (dataobj fr) = take 3 (shape (dataobj vol)) /\
  wf_array (dataobj fr) /\
  forall idx, in_bounds (shape (dataobj fr)) idx ->
    item (dataobj fr) idx = item (dataobj vol) (idx ++ [i]).


(** The name of the [i]-th frame written by [SplitSeries]. *)
Definition frame_path (in_file : path) (wd : string) (i : nat) : path :=
  absolute wd (fname_presuffix in_file ("_idx-" +:+ fmt03 i) None).

(** The exception raised on evaluating [Path]. *)
Definition path_name_error : exn := NameError "name 'Path' is not defined".

(** ** Concrete inputs *)

Module Examples.

Definition identity : affine_t := [1;0;0;0; 0;1;0;0; 0;0;1;0; 0;0;0;1]%Q.

(** The identity moved by 1e-9 along x: close to it, not equal to it. *)
Definition nudged : affine_t :=
  [1;0;0;1 # 1000000000; 0;1;0;0; 0;0;1;0; 0;0;0;1]%Q.

(** The identity moved by 5 along x. *)
Definition shifted : affine_t := [1;0;0;5; 0;1;0;0; 0;0;1;0; 0;0;0;1]%Q.

Definition hdr_id : header := mk_header float32 identity "img".
Definition hdr_mask : header := mk_header float32 identity "mask".
Definition hdr_nudged : header := mk_header float32 nudged "img".
Definition hdr_shifted : header := mk_header float32 shifted "img".


Definition rt : runtime_t := mk_runtime "/work".

Definition p_img : path := mk_path "/data" "bold" ".nii.gz".
Definition p_mask : path := mk_path "/data" "brain" ".nii.gz".
Definition p_a : path := mk_path "/data" "a" ".nii".
Definition p_b : path := mk_path "/data" "b" ".nii".
Definition p_c : path := mk_path "/data" "c" ".nii".

(** A 4-D series of two frames, one voxel of the second plane infinite. *)
Definition bold : nifti_file :=
  mk_file hdr_id (mk_ndarray [2;1;1;2] [Fin 3; Fin 4; Fin 5; PInf]).

(** A 3-D mask over the first plane only. *)
Definition brain : nifti_file :=
  mk_file hdr_mask (mk_ndarray [2;1;1] [Fin 1; Fin 0]).

(** A 4-D mask with the shape of [bold]. *)
Definition brain4 : nifti_file :=
  mk_file hdr_mask (mk_ndarray [2;1;1;2] [Fin 1; Fin 1; Fin 0; Fin 0]).

(** The same 4-D mask in another space. *)
Definition brain4_shifted : nifti_file :=
  mk_file hdr_shifted (mk_ndarray [2;1;1;2] [Fin 1; Fin 1; Fin 0; Fin 0]).

(** The 3-D mask in another space. *)
Definition brain_shifted : nifti_file :=
  mk_file hdr_shifted (mk_ndarray [2;1;1] [Fin 1; Fin 0]).

(** A 3-D mask of one voxel. *)
Definition brain_small : nifti_file :=
  mk_file hdr_mask (mk_ndarray [1;1;1] [Fin 1]).

Definition world_of (files : list (path * nifti_file)) : world :=
  mk_world (list_to_map files) ∅.

Definition mask_inputs : ApplyMask.inputs :=
  ApplyMask.mk_inputs p_img p_mask (Fin (1 # 2)).

Definition p_masked : path := mk_path "/work" "bold_masked" ".nii.gz".

Definition binarize_inputs : Binarize.inputs :=
  Binarize.mk_inputs p_img (Fin (7 # 2)).

Definition p_binmask : path := mk_path "/work" "bold_mask" ".nii.gz".

(** Three distinct 3-D volumes of one geometry. *)
Definition vol_a : nifti_file :=
  mk_file hdr_id (mk_ndarray [2;1;1] [Fin 1; Fin 2]).
Definition vol_b : nifti_file :=
  mk_file hdr_id (mk_ndarray [2;1;1] [Fin 3; Fin 4]).
Definition vol_c : nifti_file :=
  mk_file hdr_id (mk_ndarray [2;1;1] [Fin 5; Fin 6]).

(** [vol_b] with an affine close to the identity but not equal to it. *)
Definition vol_b_nudged : nifti_file :=
  mk_file hdr_nudged (mk_ndarray [2;1;1] [Fin 3; Fin 4]).

(** A volume of another shape. *)
Definition vol_wide : nifti_file :=
  mk_file hdr_id (mk_ndarray [1;2;1] [Fin 3; Fin 4]).

(** A volume of five axes. *)
Definition vol_5d : nifti_file :=
  mk_file hdr_id (mk_ndarray [1;1;1;2;2] [Fin 1; Fin 2; Fin 3; Fin 4]).

Definition p_merged : path := mk_path "/data" "a_merged" ".nii".

Definition merge_ab : MergeSeries.inputs :=
  MergeSeries.mk_inputs [p_a; p_b] true.

Definition split_bold : SplitSeries.inputs := SplitSeries.mk_inputs p_img false.

Definition split_a (accept : bool) : SplitSeries.inputs :=
  SplitSeries.mk_inputs p_a accept.


(** *** An array writer

    The scale factors nibabel computes for a float array written under the
    tag uint8 or int16 ([nibabel.arraywriters.SlopeInterArrayWriter]), in
    exact arithmetic.  With [mn] and [mx] the least and the greatest finite
    voxel and [span] the width of the integer type, the slope is
    [(mx - mn) / span]; a finite voxel [x] is stored as the integer nearest
    to [(x - mn) / slope] (ties to even, counted from the least integer of
    the type) and reads back as [mn + n * slope]; an infinite voxel is
    clipped to the range.  nibabel computes the factors in floating point
    and keeps them as float32 in the header, so what it reads back agrees
    with these values to about seven digits.  Left as they are, since no
    example writes one under an integer tag: a NaN voxel (which nibabel
    writes as zero), an array without two distinct finite values, an array
    of an integer dtype, and every array under the tag int32. *)

(** [np.rint]: the nearest integer, ties to even. *)
Definition rint (q : Q) : Z :=
  let n := Qfloor q in
  match (q - inject_Z n ?= 1 # 2)%Q with
  | Lt => n
  | Gt => (n + 1)%Z
  | Eq => if Z.even n then n else (n + 1)%Z
  end.

(** [np.iinfo(t).max - np.iinfo(t).min] *)
Definition int_span (t : dtype) : option Q :=
  match t with
  | uint8 => Some 255%Q
  | int16 => Some 65535%Q
  | _ => None
  end.

Definition finite_values (l : list float64) : list Q :=
  omap (fun x => match x with Fin q => Some q | _ => None end) l.

Definition rescale_voxel (tag : dtype) (finite : list Q) (x : float64) : float64 :=
  match int_span tag, finite with
  | Some span, q0 :: qs =>
      let mn := fold_right Qmin q0 qs in
      let mx := fold_right Qmax q0 qs in
      if Qeq_bool mn mx then x
      else
        let slope := ((mx - mn) / span)%Q in
        match x with
        | Fin q => Fin (Qred (mn + inject_Z (rint ((q - mn) / slope)) * slope))
        | PInf => Fin mx
        | NInf => Fin mn
        | NaN => NaN
        end
  | _, _ => x
  end.

Definition linear_scaling : ArrayWriter :=
  {| scaled := fun src tag a =>
       mk_ndarray (shape a)
         ((if is_float_dtype src
           then rescale_voxel tag (finite_values (flat a))
           else fun x => x) <$> flat a);
     scaled_shape := fun _ _ _ => eq_refl;
     scaled_length := fun _ _ a => length_fmap _ (flat a) |}.

End Examples.

(** ** More concrete inputs *)

Module MoreExamples.

Import Examples.



Definition p_masked_twice : path := mk_path "/work" "bold_masked_masked" ".nii.gz".

(** Binarize on its own masked output, with the threshold of
    [binarize_inputs] and with a negative threshold. *)
Definition binarize_again : Binarize.inputs :=
  Binarize.mk_inputs p_masked (Fin (7 # 2)).

Definition binarize_negative : Binarize.inputs :=
  Binarize.mk_inputs p_img (Fin (-1)).

Definition binarize_negative_again : Binarize.inputs :=
  Binarize.mk_inputs p_masked (Fin (-1)).

(** A volume with negative voxels. *)
Definition vol_signed : nifti_file :=
  mk_file hdr_id (mk_ndarray [2;1;1;2] [Fin (-3); Fin 4; NaN; Fin (-2)]).

Definition p_masked_mask : path := mk_path "/work" "bold_masked_mask" ".nii.gz".


Definition mask_with_binarized (img : path) (base : string) (ext : string)
  : ApplyMask.inputs :=
  ApplyMask.mk_inputs img (mk_path "/work" base ext) (Fin (1 # 2)).

(** A 4-D series with no frame. *)
Definition vol_empty : nifti_file :=
  mk_file hdr_id (mk_ndarray [2;1;1;0] []).

Definition merge_nothing : MergeSeries.inputs := MergeSeries.mk_inputs [] true.

Definition merge_a : MergeSeries.inputs := MergeSeries.mk_inputs [p_a] true.




Definition split_accepting : SplitSeries.inputs := SplitSeries.mk_inputs p_img true.

(** A 5-D image and a mask over its first three axes. *)
Definition vol_5d_wide : nifti_file :=
  mk_file hdr_id
    (mk_ndarray [2;1;2;1;3]
       [Fin 1; Fin 2; Fin 3; Fin 4; Fin 5; Fin 6;
        Fin 7; Fin 8; Fin 9; Fin 10; Fin 11; Fin 12]).

Definition brain_212 : nifti_file :=
  mk_file hdr_mask (mk_ndarray [2;1;2] [Fin 1; Fin 0; Fin 1; Fin 1]).

End MoreExamples.

(** * Properties

    Everything in this part holds for every array writer. *)

Section properties.

Context `{writer : ArrayWriter}.

(** ** Scalars *)




Lemma update_header_coherent (h : header) :
  update_header h (Some (best_affine h)) = h.
Proof.
  unfold update_header. destruct (allclose _ _); [reflexivity|].
  by destruct h.
Qed.

(** ** Writing *)

Lemma stored_as_shape (src tag : dtype) (a : ndarray float64) :
  shape (stored_as src tag a) = shape a.
Proof.
  unfold stored_as. destruct (_ || _); [reflexivity|]. apply scaled_shape.
Qed.


(** An array written under the tag of its own dtype is stored as it is. *)
Lemma stored_as_same (t : dtype) (a : ndarray float64) : stored_as t t a = a.
Proof.
  unfold stored_as. rewrite bool_decide_eq_true_2 by reflexivity.
  by rewrite orb_true_r.
Qed.

(** So is every array under a floating tag. *)
Lemma stored_as_float (src tag : dtype) (a : ndarray float64) :
  is_float_dtype tag = true -> stored_as src tag a = a.
Proof. unfold stored_as. by intros ->. Qed.


Lemma to_file_native (img : image) :
  native img -> to_file img = mk_file (hdr img) (dataobj img).
Proof. unfold native, to_file. intros ->. by rewrite stored_as_same. Qed.

Lemma to_file_float (img : image) :
  is_float_dtype (data_dtype (hdr img)) = true ->
  to_file img = mk_file (hdr img) (dataobj img).
Proof. unfold to_file. intros Hf. by rewrite stored_as_float. Qed.


(** ** Indexing *)

Lemma size_of_app (s1 s2 : list nat) : size_of (s1 ++ s2) = size_of s1 * size_of s2.
Proof.
  induction s1 as [|d s1 IH]; simpl; [lia|]. rewrite IH. lia.
Qed.

Lemma in_bounds_length (s idx : list nat) : in_bounds s idx -> length idx = length s.
Proof. apply Forall2_length. Qed.

Lemma ravel_lt (s idx : list nat) : in_bounds s idx -> ravel s idx < size_of s.
Proof.
  unfold in_bounds. induction 1 as [|i d idx s Hi _ IH]; simpl; [lia|].
  nia.
Qed.


Lemma ravel_snoc (s idx : list nat) (n i : nat) :
  length idx = length s ->
  ravel (s ++ [n]) (idx ++ [i]) = ravel s idx * n + i.
Proof.
  revert idx. induction s as [|d s IH]; intros [|j idx] Hlen; simpl in *; try lia.
  rewrite IH by lia. rewrite size_of_app. simpl. lia.
Qed.

Lemma in_bounds_snoc (s idx : list nat) (n i : nat) :
  in_bounds s idx -> i < n -> in_bounds (s ++ [n]) (idx ++ [i]).
Proof. intros H Hi. apply Forall2_app; [exact H|]. by constructor. Qed.



(** ** Broadcasting *)








(** ** ApplyMask *)

Section apply_mask.

Import ApplyMask.

Variables (self : inputs) (runtime : runtime_t) (w : world).
Variables (fi fm : nifti_file).
Hypothesis Himg : fs w !! in_file self = Some fi.
Hypothesis Hmsk : fs w !! in_mask self = Some fm.

Let out_file : path :=
  fname_presuffix (in_file self) "_masked" (Some (cwd runtime)).
Let w1 : world := mk_world (fs w) (<["out_file" := RStr out_file]> (results w)).
Let msk : ndarray bool := greater (f_data fm) (threshold self).

(** The method on two files that exist, as a case analysis. *)
Lemma apply_mask_run :
  _run_interface self runtime w =
    if negb (shape_eqb (take 3 (shape (f_data fi))) (shape (f_data fm)))
    then (inl sizes_error, w1)
    else if negb (allclose (best_affine (f_hdr fi)) (best_affine (f_hdr fm)))
    then (inl affines_error, w1)
    else
      match multiply (f_data fi)
              (if ndim (f_data fi) =? ndim (f_data fm) + 1 then newaxis msk else msk)
      with
      | inl e => (inl e, w1)
      | inr data =>
          (inr tt, mk_world (<[out_file := mk_file (f_hdr fi) data]> (fs w)) (results w1))
      end.
Proof.
  unfold _run_interface, bind, nb_load, image_of_file. rewrite Himg, Hmsk. simpl.
  destruct (shape_eqb _ _); simpl; [|reflexivity].
  destruct (allclose _ _); simpl; [|reflexivity].
  unfold lift, ndim. simpl. destruct (multiply _ _); [reflexivity|].
  unfold to_filename, to_file, new_image. cbn [hdr arr_dtype dataobj update_header].
  by rewrite stored_as_same.
Qed.

Lemma apply_mask_sizes :
  shape (f_data fm) <> take 3 (shape (f_data fi)) ->
  _run_interface self runtime w = (inl sizes_error, w1).
Proof.
  intros Hne. rewrite apply_mask_run. unfold shape_eqb.
  rewrite bool_decide_eq_false_2; [reflexivity|]. congruence.
Qed.

Lemma apply_mask_affines :
  shape (f_data fm) = take 3 (shape (f_data fi)) ->
  allclose (best_affine (f_hdr fi)) (best_affine (f_hdr fm)) = false ->
  _run_interface self runtime w = (inl affines_error, w1).
Proof.
  intros Hs Hc. rewrite apply_mask_run. unfold shape_eqb.
  rewrite bool_decide_eq_true_2 by congruence. simpl. by rewrite Hc.
Qed.


End apply_mask.


(** C3 (as amended). Whatever the voxels and the threshold.  The size test
    comes first and compares the mask's whole shape with the image's first
    three axes: when they are not equal [ApplyMask] raises the size error,
    whatever the affines.  This is so when the first three axes of image and
    mask differ, and for every mask of four axes or more.  When the mask's
    shape is the image's first three axes and the affines are not close, it
    raises the affine error.  In every case no file is written. *)
Theorem apply_mask_raises
    (self : ApplyMask.inputs) (runtime : runtime_t) (w : world)
    (fi fm : nifti_file) :
  fs w !! ApplyMask.in_file self = Some fi ->
  fs w !! ApplyMask.in_mask self = Some fm ->
  let w1 :=
    mk_world (fs w)
      (<["out_file" :=
           RStr (fname_presuffix (ApplyMask.in_file self) "_masked" (Some (cwd runtime)))]>
         (results w)) in
  (shape (f_data fm) <> take 3 (shape (f_data fi)) ->
   ApplyMask._run_interface self runtime w = (inl ApplyMask.sizes_error, w1)) /\
  (take 3 (shape (f_data fi)) <> take 3 (shape (f_data fm)) ->
   ApplyMask._run_interface self runtime w = (inl ApplyMask.sizes_error, w1)) /\
  (4 <= ndim (f_data fm) ->
   ApplyMask._run_interface self runtime w = (inl ApplyMask.sizes_error, w1)) /\
  (shape (f_data fm) = take 3 (shape (f_data fi)) ->
   allclose (best_affine (f_hdr fi)) (best_affine (f_hdr fm)) = false ->
   ApplyMask._run_interface self runtime w = (inl ApplyMask.affines_error, w1)).
Proof.
  intros Himg Hmsk w1.
  pose proof (apply_mask_sizes self runtime w fi fm Himg Hmsk) as Hsizes.
  split; [exact Hsizes|]. split; [|split].
  - intros Hne. apply Hsizes.
    intros Heq. apply Hne. rewrite Heq. by rewrite take_take.
  - intros H4. apply Hsizes.
    intros Heq. unfold ndim in H4. rewrite Heq, length_take in H4. lia.
  - intros Hs Hc. by apply (apply_mask_affines self runtime w fi fm).
Qed.

(** C10. A mask of four axes is always refused with the size error, whatever
    the image, its shape, the affines and the threshold: the test compares
    the image's first three axes with the whole shape of the mask. *)
Theorem apply_mask_refuses_4d_mask
    (self : ApplyMask.inputs) (runtime : runtime_t) (w : world)
    (fi fm : nifti_file) :
  fs w !! ApplyMask.in_file self = Some fi ->
  fs w !! ApplyMask.in_mask self = Some fm ->
  ndim (f_data fm) = 4 ->
  ApplyMask._run_interface self runtime w =
    (inl ApplyMask.sizes_error,
     mk_world (fs w)
       (<["out_file" :=
            RStr (fname_presuffix (ApplyMask.in_file self) "_masked" (Some (cwd runtime)))]>
          (results w))).
Proof.
  intros Himg Hmsk H4.
  apply (apply_mask_sizes self runtime w fi fm Himg Hmsk).
  intros Heq. unfold ndim in H4. rewrite Heq, length_take in H4. lia.
Qed.

(** ** Binarize *)

Lemma putmask_invert_greater (data : ndarray float64) (t : float64) :
  putmask data (invert (greater data t)) (Fin 0) =
  mk_ndarray (shape data) ((fun x => if fgt x t then x else Fin 0) <$> flat data).
Proof.
  unfold putmask, invert, greater. simpl. f_equal.
  induction (flat data) as [|x l IH]; simpl; [reflexivity|].
  destruct (fgt x t); simpl; f_equal; exact IH.
Qed.

Lemma presuffix_masked_ne_mask (p : path) (d : option string) :
  fname_presuffix p "_masked" d <> fname_presuffix p "_mask" d.
Proof.
  unfold fname_presuffix. intros H. injection H as H.
  apply (inj (String.app (p_base p))) in H. discriminate.
Qed.

(** The run of [Binarize] on a file that exists: the two images it hands
    to the writer. *)
Lemma binarize_run (self : Binarize.inputs) (runtime : runtime_t) (w : world)
    (f : nifti_file) :
  fs w !! Binarize.in_file self = Some f ->
  let t := Binarize.thresh_low self in
  let out_file :=
    fname_presuffix (Binarize.in_file self) "_masked" (Some (cwd runtime)) in
  let out_mask :=
    fname_presuffix (Binarize.in_file self) "_mask" (Some (cwd runtime)) in
  let aff := best_affine (f_hdr f) in
  Binarize._run_interface self runtime w =
    (inr tt,
     mk_world
       (<[out_mask :=
            mk_file (mk_header uint8 aff (descrip (f_hdr f)))
              (mk_ndarray (shape (f_data f))
                 ((fun x => of_bool (fgt x t)) <$> flat (f_data f)))]>
          (<[out_file :=
               to_file
                 (mk_image
                    (mk_ndarray (shape (f_data f))
                       ((fun x => if fgt x t then x else Fin 0) <$> flat (f_data f)))
                    float64_ (Some aff) (f_hdr f))]>
             (fs w)))
       (<["out_mask" := RStr out_mask]>
          (<["out_file" := RStr out_file]> (results w)))).
Proof.
  intros Hf t out_file out_mask aff.
  unfold Binarize._run_interface, bind, nb_load, set_result, to_filename.
  rewrite Hf. unfold image_of_file. cbn [affine hdr dataobj arr_dtype fs results].
  rewrite putmask_invert_greater. unfold new_image.
  rewrite update_header_coherent.
  pose proof (update_header_coherent (set_data_dtype uint8 (f_hdr f))) as Hu.
  cbn [set_data_dtype best_affine] in Hu. rewrite Hu.
  rewrite (to_file_native (mk_image _ uint8 _ _)) by reflexivity.
  unfold get_fdata, astype_uint8, greater.
  cbn [affine hdr dataobj arr_dtype fs results shape flat].
  by rewrite <- list_fmap_compose.
Qed.


(** ** Slicing and stacking along the last axis *)

Lemma omap_total_lookup {A B} (f : A -> option B) (l : list A) (p : nat) :
  Forall (fun x => is_Some (f x)) l ->
  omap f l !! p = l !! p ≫= f.
Proof.
  intros H. revert p. induction H as [|x l [y Hy] _ IH]; intros p; [by destruct p|].
  simpl. rewrite Hy. destruct p as [|p]; simpl; [by rewrite Hy|]. apply IH.
Qed.

Lemma omap_total_length {A B} (f : A -> option B) (l : list A) :
  Forall (fun x => is_Some (f x)) l -> length (omap f l) = length l.
Proof.
  induction 1 as [|x l [y Hy] _ IH]; [reflexivity|].
  simpl. rewrite Hy. simpl. f_equal. exact IH.
Qed.


Lemma flat_map_uniform_lookup {A B} (g : A -> list B) (l : list A) (n p i : nat) :
  Forall (fun x => length (g x) = n) l -> i < n ->
  flat_map g l !! (p * n + i) = l !! p ≫= (fun x => g x !! i).
Proof.
  intros H Hi. revert p. induction H as [|x l Hx _ IH]; intros p; [by destruct p|].
  simpl. destruct p as [|p]; simpl.
  - rewrite lookup_app_l by lia. reflexivity.
  - rewrite lookup_app_r by lia. rewrite Hx.
    replace (n + p * n + i - n) with (p * n + i) by lia. apply IH.
Qed.

Lemma lookup_all_seq {A} (l : list A) :
  omap (fun p => l !! p) (seq 0 (length l)) = l.
Proof.
  apply list_eq. intros p.
  rewrite omap_total_lookup.
  - destruct (decide (p < length l)) as [Hp|Hp].
    + by rewrite lookup_seq_lt.
    + rewrite lookup_seq_ge by lia. simpl. symmetry. apply lookup_ge_None. lia.
  - apply Forall_forall. intros x Hx. apply elem_of_seq in Hx.
    apply lookup_lt_is_Some. lia.
Qed.

Section stack.

Context {A : Type}.
Variables (s : list nat) (arrs : list (ndarray A)).
Hypothesis Hwf : Forall (fun a => wf_array a /\ shape a = s) arrs.

Lemma stack_column_some (p : nat) :
  p < size_of s -> Forall (fun a => is_Some (flat a !! p)) arrs.
Proof.
  intros Hp. eapply Forall_impl; [exact Hwf|]. intros a [Hw Hs]. simpl.
  apply lookup_lt_is_Some. rewrite Hw, Hs. exact Hp.
Qed.

Lemma stack_columns :
  Forall (fun p => length (omap (fun a : ndarray A => flat a !! p) arrs) = length arrs)
    (seq 0 (size_of s)).
Proof.
  apply Forall_forall. intros p Hp. apply elem_of_seq in Hp.
  apply omap_total_length, stack_column_some. lia.
Qed.



(** Slicing the stack at [i] gives back the [i]-th array. *)
Lemma take_last_axis_stack (i : nat) (a : ndarray A) :
  arrs !! i = Some a ->
  take_last_axis (stack_last s arrs) (length arrs) i = a.
Proof.
  intros Ha.
  assert (Hi : i < length arrs) by (by eapply lookup_lt_Some).
  destruct (Forall_lookup_1 _ _ _ _ Hwf Ha) as [Hw Hs].
  unfold take_last_axis, ndim. simpl.
  rewrite length_app. simpl.
  replace (length s + 1 - 1) with (length s) by lia.
  rewrite take_app_length.
  destruct a as [sa fa]. simpl in *. subst sa. f_equal.
  unfold wf_array in Hw. simpl in Hw.
  rewrite <- (lookup_all_seq fa). rewrite Hw.
  apply list_eq. intros p.
  rewrite !omap_total_lookup.
  - destruct (decide (p < size_of s)) as [Hp|Hp].
    + rewrite lookup_seq_lt by exact Hp. simpl.
      rewrite (flat_map_uniform_lookup _ _ _ _ _ stack_columns Hi).
      rewrite lookup_seq_lt by exact Hp. simpl.
      rewrite omap_total_lookup by (by apply stack_column_some).
      by rewrite Ha.
    + by rewrite lookup_seq_ge by lia.
  - apply Forall_forall. intros p' Hp'. apply elem_of_seq in Hp'.
    apply lookup_lt_is_Some. rewrite Hw. lia.
  - apply Forall_forall. intros p' Hp'. apply elem_of_seq in Hp'.
    rewrite (flat_map_uniform_lookup _ _ _ _ _ stack_columns Hi).
    rewrite lookup_seq_lt by lia. simpl.
    rewrite omap_total_lookup by (apply stack_column_some; lia).
    rewrite Ha. simpl. apply lookup_lt_is_Some. rewrite Hw. lia.
Qed.

End stack.

(** ** nibabel.funcs *)

Lemma size_of_rev (l : list nat) : size_of (rev l) = size_of l.
Proof.
  induction l as [|d l IH]; simpl; [reflexivity|].
  rewrite size_of_app, IH. simpl. lia.
Qed.

Lemma drop_ones_size (r : list nat) : size_of (drop_ones r) = size_of r.
Proof.
  induction r as [|d r IH]; [reflexivity|].
  destruct d as [|[|d]]; simpl; try reflexivity. rewrite IH. lia.
Qed.

Lemma drop_ones_length (r : list nat) : length (drop_ones r) <= length r.
Proof.
  induction r as [|d r IH]; [reflexivity|].
  destruct d as [|[|d]]; simpl; try lia.
Qed.

Lemma drop_ones_same (r : list nat) :
  length (drop_ones r) = length r -> drop_ones r = r.
Proof.
  destruct r as [|d r]; [reflexivity|].
  destruct d as [|[|d]]; simpl; try reflexivity.
  pose proof (drop_ones_length r). lia.
Qed.

Lemma new_image_coherent (d : ndarray float64) (dt : dtype) (img : image) :
  coherent img ->
  new_image d dt (affine img) (hdr img) = mk_image d dt (affine img) (hdr img).
Proof.
  unfold coherent, new_image. intros H. rewrite H at 2.
  by rewrite update_header_coherent.
Qed.

Lemma image_of_file_coherent (f : nifti_file) : coherent (image_of_file f).
Proof. reflexivity. Qed.

Lemma image_of_file_native (f : nifti_file) : native (image_of_file f).
Proof. reflexivity. Qed.

Lemma squeeze_image_dtype (img : image) :
  arr_dtype (squeeze_image img) = arr_dtype img.
Proof.
  unfold squeeze_image. destruct (length _ <? 4); [reflexivity|].
  by destruct (_ =? _).
Qed.

Section squeeze.

Variable img : image.
Hypothesis Hco : coherent img.

Lemma squeeze_image_parts :
  affine (squeeze_image img) = affine img /\
  hdr (squeeze_image img) = hdr img /\
  flat (dataobj (squeeze_image img)) = flat (dataobj img) /\
  size_of (shape (dataobj (squeeze_image img))) = size_of (shape (dataobj img)).
Proof.
  unfold squeeze_image.
  destruct (length _ <? 4); [by rewrite new_image_coherent|].
  destruct (_ =? _); rewrite new_image_coherent by exact Hco;
    [done|]. simpl. repeat split.
  rewrite size_of_app, size_of_rev, drop_ones_size, size_of_rev, <- size_of_app.
  by rewrite take_drop.
Qed.

Lemma squeeze_image_coherent : coherent (squeeze_image img).
Proof.
  destruct squeeze_image_parts as (Ha & Hh & _). unfold coherent.
  by rewrite Ha, Hh.
Qed.

Lemma squeeze_image_wf :
  wf_array (dataobj img) -> wf_array (dataobj (squeeze_image img)).
Proof.
  destruct squeeze_image_parts as (_ & _ & Hf & Hs). unfold wf_array.
  by rewrite Hf, Hs.
Qed.

Lemma squeeze_image_native : native img -> native (squeeze_image img).
Proof.
  destruct squeeze_image_parts as (_ & Hh & _). unfold native.
  by rewrite squeeze_image_dtype, Hh.
Qed.

(** An image of four axes whose last axis is not of length 1 is unchanged. *)
Lemma squeeze_image_4d (s3 : list nat) (t : nat) :
  shape (dataobj img) = s3 ++ [t] -> length s3 = 3 -> t <> 1 ->
  squeeze_image img = img.
Proof.
  intros Hs H3 Ht. unfold squeeze_image. rewrite new_image_coherent by exact Hco.
  rewrite Hs, length_app, H3. simpl.
  rewrite take_app_length' by (by symmetry).
  rewrite drop_app_length' by (by symmetry). simpl.
  destruct t as [|[|t]]; try congruence; simpl;
    rewrite length_app, H3; simpl; by destruct img.
Qed.

End squeeze.

Section last_axis.

Context {A : Type}.
Variables (a : ndarray A) (s : list nat) (t : nat).
Hypothesis Hwf : wf_array a.
Hypothesis Hs : shape a = s ++ [t].

Lemma take_last_axis_shape (i : nat) : shape (take_last_axis a t i) = s.
Proof.
  unfold take_last_axis, ndim. simpl. rewrite Hs, length_app. simpl.
  replace (length s + 1 - 1) with (length s) by lia. apply take_app_length.
Qed.

Lemma take_last_axis_some (i : nat) :
  i < t -> Forall (fun p => is_Some (flat a !! (p * t + i))) (seq 0 (size_of s)).
Proof.
  intros Hi. apply Forall_forall. intros p Hp. apply elem_of_seq in Hp.
  apply lookup_lt_is_Some. rewrite Hwf, Hs, size_of_app. simpl. nia.
Qed.

Lemma take_last_axis_wf (i : nat) : i < t -> wf_array (take_last_axis a t i).
Proof.
  intros Hi. unfold wf_array. rewrite take_last_axis_shape.
  unfold take_last_axis, ndim. simpl. rewrite Hs, length_app. simpl.
  replace (length s + 1 - 1) with (length s) by lia. rewrite take_app_length.
  rewrite omap_total_length by (by apply take_last_axis_some).
  apply length_seq.
Qed.

(** Element [idx] of the slice at [i] is element [idx ++ [i]] of the array. *)
Lemma take_last_axis_item (i : nat) (idx : list nat) :
  i < t -> in_bounds s idx ->
  item (take_last_axis a t i) idx = item a (idx ++ [i]).
Proof.
  intros Hi Hb. unfold item. rewrite take_last_axis_shape.
  unfold take_last_axis, ndim. simpl. rewrite Hs, length_app. simpl.
  replace (length s + 1 - 1) with (length s) by lia. rewrite take_app_length.
  rewrite omap_total_lookup by (by apply take_last_axis_some).
  rewrite lookup_seq_lt by (by apply ravel_lt). simpl.
  by rewrite ravel_snoc by (by apply in_bounds_length).
Qed.

End last_axis.

Lemma shape_four (s : list nat) :
  length s = 4 -> s = take 3 s ++ [nth 3 s 0] /\ length (take 3 s) = 3.
Proof.
  destruct s as [|a [|b [|c [|d [|? ?]]]]]; try discriminate. by intros _.
Qed.

Lemma four_to_three_frames (img : image) :
  coherent img -> ndim (dataobj img) = 4 ->
  four_to_three img =
    inr ((fun i =>
            mk_image (take_last_axis (dataobj img) (nth 3 (shape (dataobj img)) 0) i)
              (arr_dtype img) (affine img) (hdr img))
           <$> seq 0 (nth 3 (shape (dataobj img)) 0)).
Proof.
  intros Hco H4. unfold four_to_three. rewrite H4. simpl. f_equal.
  apply list_fmap_ext. intros _ i _. by apply new_image_coherent.
Qed.

Lemma four_to_three_slices (img : image) (frames : list image) :
  coherent img -> wf_array (dataobj img) ->
  four_to_three img = inr frames ->
  ndim (dataobj img) = 4 /\
  length frames = nth 3 (shape (dataobj img)) 0 /\
  forall i fr, frames !! i = Some fr -> slice_of img i fr.
Proof.
  intros Hco Hwf H43.
  assert (H4 : ndim (dataobj img) = 4).
  { unfold four_to_three in H43. destruct (ndim (dataobj img) =? 4) eqn:E.
    - by apply Nat.eqb_eq in E.
    - discriminate. }
  rewrite (four_to_three_frames img Hco H4) in H43. inversion H43; subst frames.
  clear H43. split; [exact H4|]. split; [by rewrite length_fmap, length_seq|].
  intros i fr Hfr. rewrite list_lookup_fmap in Hfr.
  destruct (seq _ _ !! i) as [j|] eqn:Hj; [|discriminate].
  apply lookup_seq in Hj as [-> Hi]. simpl in Hfr. inversion Hfr; subst fr.
  destruct (shape_four _ H4) as [Hs H3].
  unfold slice_of. cbn [hdr affine dataobj].
  rewrite (take_last_axis_shape _ _ _ Hs).
  repeat split; try reflexivity.
  - by apply (take_last_axis_wf _ _ _ Hwf Hs).
  - intros idx Hb. by apply (take_last_axis_item _ _ _ Hwf Hs).
Qed.

Lemma four_to_three_native (img : image) (frames : list image) :
  coherent img -> native img ->
  four_to_three img = inr frames -> Forall native frames.
Proof.
  intros Hco Hn H43.
  assert (H4 : ndim (dataobj img) = 4).
  { unfold four_to_three in H43. destruct (ndim (dataobj img) =? 4) eqn:E.
    - by apply Nat.eqb_eq in E.
    - discriminate. }
  rewrite (four_to_three_frames img Hco H4) in H43. injection H43 as <-.
  apply Forall_fmap, Forall_forall. intros i _. exact Hn.
Qed.

(** ** MergeSeries *)

Section collect.

Import MergeSeries.

Variables (allow : bool) (w : world).

Lemma collect_cons (p : path) (rest : list path) (acc : list image) (f : nifti_file) :
  fs w !! p = Some f ->
  collect allow (p :: rest) acc w =
    let filenii := squeeze_image (image_of_file f) in
    if ndim (dataobj filenii) =? 3 then collect allow rest (acc ++ [filenii]) w
    else if allow && (ndim (dataobj filenii) =? 4) then
      match four_to_three filenii with
      | inl e => (inl e, w)
      | inr frames => collect allow rest (acc ++ frames) w
      end
    else (inl (dimension_error (ndim (dataobj filenii))), w).
Proof.
  intros Hf. simpl. unfold bind at 1. unfold nb_load. rewrite Hf. simpl.
  destruct (_ =? 3); [reflexivity|].
  destruct (allow && _); [|reflexivity].
  unfold bind, lift. by destruct (four_to_three _).
Qed.

Lemma collect_missing (p : path) (rest : list path) (acc : list image) :
  fs w !! p = None ->
  collect allow (p :: rest) acc w =
    (inl (FileNotFoundError "No such file or no access"), w).
Proof.
  intros Hf. simpl. unfold bind at 1. unfold nb_load. by rewrite Hf.
Qed.

(** The loop writes nothing. *)
Lemma collect_world (files : list path) (acc : list image) r w' :
  collect allow files acc w = (r, w') -> w' = w.
Proof.
  revert acc. induction files as [|p rest IH]; intros acc H.
  - by inversion H.
  - destruct (fs w !! p) as [f|] eqn:Hf.
    + rewrite (collect_cons _ _ _ _ Hf) in H. simpl in H.
      destruct (_ =? 3); [by eapply IH|].
      destruct (allow && _); [|by inversion H].
      destruct (four_to_three _); [by inversion H | by eapply IH].
    + rewrite (collect_missing _ _ _ Hf) in H. by inversion H.
Qed.

Lemma collect_frames (files : list path) (acc l : list image) w' :
  collect allow files acc w = (inr l, w') ->
  exists groups,
    Forall2 (fun p g => exists f, fs w !! p = Some f /\
                                  frames_from allow (image_of_file f) g)
      files groups /\
    l = acc ++ concat groups.
Proof.
  revert acc. induction files as [|p rest IH]; intros acc H.
  - inversion H; subst. exists []. split; [constructor|]. simpl.
    by rewrite app_nil_r.
  - destruct (fs w !! p) as [f|] eqn:Hf.
    + rewrite (collect_cons _ _ _ _ Hf) in H. simpl in H.
      destruct (_ =? 3) eqn:E3.
      { apply IH in H as (groups & HF & ->).
        exists ([squeeze_image (image_of_file f)] :: groups). split.
        - constructor; [|exact HF]. exists f. split; [exact Hf|].
          left. split; [by apply Nat.eqb_eq|reflexivity].
        - simpl. by rewrite <- app_assoc. }
      destruct allow eqn:Ea; simpl in H; [|by inversion H].
      destruct (_ =? 4) eqn:E4; [|by inversion H].
      destruct (four_to_three _) as [e|frames] eqn:E43; [by inversion H|].
      apply IH in H as (groups & HF & ->).
      exists (frames :: groups). split.
      * constructor; [|exact HF]. exists f. split; [exact Hf|].
        right. split; [by apply Nat.eqb_eq|]. by split.
      * simpl. by rewrite <- app_assoc.
    + rewrite (collect_missing _ _ _ Hf) in H. by inversion H.
Qed.

Lemma collect_ok (files : list path) (groups : list (list image)) (acc : list image) :
  Forall2 (fun p g => exists f, fs w !! p = Some f /\
                                frames_from allow (image_of_file f) g)
    files groups ->
  collect allow files acc w = (inr (acc ++ concat groups), w).
Proof.
  intros H. revert acc.
  induction H as [|p g files groups (f & Hf & Hg) _ IH]; intros acc.
  - simpl. by rewrite app_nil_r.
  - rewrite (collect_cons _ _ _ _ Hf). simpl.
    destruct Hg as [[H3 ->]|(H4 & Ha & H43)].
    + rewrite H3. simpl. etrans; [apply IH|]. by rewrite <- app_assoc.
    + assert (Hc : allow && (ndim (dataobj (squeeze_image (image_of_file f))) =? 4)
                   = true) by (by rewrite H4, Ha).
      rewrite Hc, H4, H43. simpl. etrans; [apply IH|]. by rewrite <- app_assoc.
Qed.

(** A file of the wrong dimensionality stops the loop with the dimension
    error, provided that the files before it can be read. *)
Lemma collect_dimension (files : list path) (acc : list image) :
  Forall (fun p => is_Some (fs w !! p)) files ->
  Exists (fun p => exists f, fs w !! p = Some f /\
            let n := ndim (dataobj (squeeze_image (image_of_file f))) in
            (n = 4 /\ allow = false) \/ (n <> 3 /\ n <> 4))
    files ->
  exists n, collect allow files acc w = (inl (dimension_error n), w).
Proof.
  intros Hall Hbad. revert acc.
  induction files as [|p rest IH]; intros acc; [by inversion Hbad|].
  inversion Hall as [|? ? [f Hf] Hrest]; subst.
  rewrite (collect_cons _ _ _ _ Hf). cbv zeta.
  assert (Hhere : forall f', fs w !! p = Some f' -> f' = f) by (intros f' Hf'; congruence).
  remember (squeeze_image (image_of_file f)) as sq eqn:Hsq.
  destruct (ndim (dataobj sq) =? 3) eqn:E3.
  - apply Nat.eqb_eq in E3.
    apply Exists_cons in Hbad as [(f' & Hf' & Hn)|Hbad]; [|by apply IH].
    apply Hhere in Hf'. subst f'. rewrite <- Hsq in Hn. simpl in Hn. lia.
  - apply Nat.eqb_neq in E3.
    destruct (ndim (dataobj sq) =? 4) eqn:E4.
    + apply Nat.eqb_eq in E4.
      apply Exists_cons in Hbad as [(f' & Hf' & Hn)|Hbad].
      * apply Hhere in Hf'. subst f'. rewrite <- Hsq in Hn. simpl in Hn.
        destruct Hn as [[_ Ha]|[_ ?]]; [|lia]. rewrite Ha. simpl. eauto.
      * destruct (allow && true) eqn:Ea; [|eauto].
        unfold four_to_three. rewrite E4. simpl. by apply IH.
    + rewrite andb_false_r. eauto.
Qed.

End collect.

Section concat.

Variable img0 : image.

Lemma concat_check_geometry (l : list image) (e : exn) :
  concat_check img0 l = Some e -> geometry_error e.
Proof.
  unfold geometry_error. induction l as [|img l IH]; simpl; [discriminate|].
  destruct (negb (_ =? _)); [intros [= <-]; by left|].
  destruct (negb (shape_eqb _ _)); [intros [= <-]; right; by left|].
  destruct (negb (affine_eq _ _)); [intros [= <-]; right; by right|].
  exact IH.
Qed.

Lemma concat_check_none (l : list image) :
  concat_check img0 l = None <->
  Forall (fun img => shape (dataobj img) = shape (dataobj img0) /\
                     affine_eq (affine img) (affine img0) = true) l.
Proof.
  induction l as [|img l IH]; simpl; [by split; [constructor|]|].
  unfold shape_eqb, ndim. rewrite Forall_cons.
  destruct (decide (shape (dataobj img) = shape (dataobj img0))) as [Hs|Hs].
  - rewrite Hs, Nat.eqb_refl, bool_decide_eq_true_2 by reflexivity. simpl.
    destruct (affine_eq _ _); simpl.
    + rewrite IH. tauto.
    + split; [discriminate|]. intros [[_ ?] _]. discriminate.
  - split.
    + destruct (negb _); [discriminate|].
      rewrite bool_decide_eq_false_2 by exact Hs. discriminate.
    + intros [[? _] _]. contradiction.
Qed.

Lemma concat_check_bad (l : list image) :
  Exists (fun img => shape (dataobj img) <> shape (dataobj img0) \/
                     affine_eq (affine img) (affine img0) = false) l ->
  exists e, concat_check img0 l = Some e /\ geometry_error e.
Proof.
  intros Hbad. destruct (concat_check img0 l) as [e|] eqn:Hc.
  - exists e. split; [reflexivity|]. by eapply concat_check_geometry.
  - apply concat_check_none in Hc. exfalso.
    apply Exists_exists in Hbad as (img & Hin & Hb).
    apply (proj1 (Forall_forall _ _) Hc) in Hin as [Hs Ha].
    destruct Hb as [Hb|Hb]; [contradiction|congruence].
Qed.

End concat.

Lemma affine_eq_refl_coherent (img : image) :
  coherent img -> affine_eq (affine img) (affine img) = true.
Proof.
  unfold coherent. intros ->. simpl. unfold all_equal.
  induction (best_affine (hdr img)) as [|x l IH]; [reflexivity|].
  simpl. rewrite IH, andb_true_r. apply Qeq_bool_iff. reflexivity.
Qed.

Section merge.

Import MergeSeries.

Variables (self : inputs) (runtime : runtime_t) (w : world).

Lemma merge_run :
  _run_interface self runtime w =
    match in_files self with
    | [] => (inl undefined_error, w)
    | f0 :: _ =>
        match collect (allow_4D self) (in_files self) [] w with
        | (inl e, _) => (inl e, w)
        | (inr nii_list, _) =>
            match concat_images nii_list with
            | inl e => (inl e, w)
            | inr img_4d =>
                let out_file := fname_presuffix f0 "_merged" None in
                (inr tt,
                 mk_world (<[out_file := to_file img_4d]> (fs w))
                          (<["out_file" := RStr out_file]> (results w)))
            end
        end
    end.
Proof.
  unfold _run_interface. destruct (in_files self) as [|f0 rest]; [reflexivity|].
  unfold bind at 1.
  destruct (collect _ _ _ w) as [[e|l] w1] eqn:Hc;
    apply collect_world in Hc as ->; [reflexivity|].
  unfold bind, lift. by destruct (concat_images l).
Qed.

(** Nothing is written when the method raises. *)
Lemma merge_error_world (e : exn) (w' : world) :
  _run_interface self runtime w = (inl e, w') -> w' = w.
Proof.
  rewrite merge_run.
  destruct (in_files self) as [|f0 rest]; [by intros [= _ <-]|].
  destruct (collect _ _ _ w) as [[e1|l] w1]; [by intros [= _ <-]|].
  destruct (concat_images l); [by intros [= _ <-]|discriminate].
Qed.

End merge.





Lemma frames_from_coherent (allow : bool) (f : nifti_file) (g : list image) :
  frames_from allow (image_of_file f) g -> Forall coherent g.
Proof.
  intros Hg.
  pose proof (squeeze_image_coherent _ (image_of_file_coherent f)) as Hsc.
  unfold frames_from in Hg. cbv zeta in Hg.
  destruct Hg as [[_ ->]|(H4 & _ & H43)]; [by repeat constructor|].
  rewrite (four_to_three_frames _ Hsc H4) in H43. injection H43 as <-.
  apply Forall_fmap, Forall_forall. intros i _. exact Hsc.
Qed.

Lemma frames_coherent (allow : bool) (w : world) (files : list path)
    (groups : list (list image)) :
  Forall2 (fun p g => exists f, fs w !! p = Some f /\
                                frames_from allow (image_of_file f) g)
    files groups ->
  Forall coherent (concat groups).
Proof.
  induction 1 as [|p g files groups (f & _ & Hg) _ IH]; [constructor|].
  simpl. apply Forall_app. split; [by eapply frames_from_coherent | exact IH].
Qed.

(** C8 (as amended). With every input readable: an input that once squeezed
    has four axes while [allow_4D] is false, or has neither three nor four
    axes, makes [MergeSeries] raise the dimension error; when the
    dimensions are accepted, a frame whose shape differs from the first
    frame's, or whose affine is not entrywise equal to the first frame's,
    makes it raise a geometry error; and when every frame has the first
    frame's shape and an affine entrywise equal to it, it raises nothing.
    The affines are compared by equality, with no tolerance.  Nothing is
    written when it raises. *)
Theorem merge_raises
    (self : MergeSeries.inputs) (runtime : runtime_t) (w : world) :
  Forall (fun p => is_Some (fs w !! p)) (MergeSeries.in_files self) ->
  (Exists (fun p => exists f, fs w !! p = Some f /\
             let n := ndim (dataobj (squeeze_image (image_of_file f))) in
             (n = 4 /\ MergeSeries.allow_4D self = false) \/ (n <> 3 /\ n <> 4))
     (MergeSeries.in_files self) ->
   exists n,
     MergeSeries._run_interface self runtime w =
       (inl (MergeSeries.dimension_error n), w)) /\
  (forall groups frame0 frames,
     Forall2 (fun p g => exists f, fs w !! p = Some f /\
                frames_from (MergeSeries.allow_4D self) (image_of_file f) g)
       (MergeSeries.in_files self) groups ->
     concat groups = frame0 :: frames ->
     (Exists (fun fr => shape (dataobj fr) <> shape (dataobj frame0) \/
                        affine_eq (affine fr) (affine frame0) = false) frames ->
      exists e, geometry_error e /\
                MergeSeries._run_interface self runtime w = (inl e, w)) /\
     (Forall (fun fr => shape (dataobj fr) = shape (dataobj frame0) /\
                        affine_eq (affine fr) (affine frame0) = true) frames ->
      fst (MergeSeries._run_interface self runtime w) = inr tt)).
Proof.
  intros Hall. split.
  - intros Hbad. rewrite merge_run.
    destruct (collect_dimension (MergeSeries.allow_4D self) w _ [] Hall Hbad)
      as [n Hn].
    exists n. rewrite Hn.
    destruct (MergeSeries.in_files self); [by inversion Hbad|reflexivity].
  - intros groups frame0 frames Hgroups Hfr.
    pose proof (collect_ok _ w _ _ [] Hgroups) as Hc. simpl in Hc.
    assert (Hin : exists f0 rest, MergeSeries.in_files self = f0 :: rest).
    { destruct (MergeSeries.in_files self) as [|f0 rest]; [|eauto].
      inversion Hgroups; subst. discriminate. }
    destruct Hin as (f0 & rest & Hin).
    rewrite merge_run, Hc, Hfr, Hin. split.
    + intros Hbad. unfold concat_images.
      destruct (concat_check_bad frame0 (frame0 :: frames)) as (e & He & Hg).
      { by apply Exists_cons_tl. }
      exists e. split; [exact Hg|]. by rewrite He.
    + intros Hgood.
      assert (Hco : coherent frame0).
      { pose proof (frames_coherent _ _ _ _ Hgroups) as Hcoh.
        rewrite Hfr in Hcoh. by inversion Hcoh. }
      unfold concat_images.
      assert (Hck : concat_check frame0 (frame0 :: frames) = None).
      { apply concat_check_none. constructor; [|exact Hgood].
        split; [reflexivity|]. by apply affine_eq_refl_coherent. }
      by rewrite Hck.
Qed.

(** ** SplitSeries *)

Lemma path_not_global : bool_decide ("Path" ∈ module_globals) = false.
Proof. reflexivity. Qed.

Section split.

Import SplitSeries.

Variables (globals : list string) (self : inputs) (runtime : runtime_t) (w : world).
Variable f : nifti_file.
Hypothesis Hf : fs w !! in_file self = Some f.

Let filenii : image := squeeze_image (image_of_file f).

Lemma split_run :
  run_with globals self runtime w =
    if negb (ndim (dataobj filenii) =? 4) then
      if accept_3D self && (ndim (dataobj filenii) =? 3) then
        if bool_decide ("Path" ∈ globals) then
          let out_file := frame_path (in_file self) (cwd runtime) 0 in
          (inr tt,
           mk_world (<[out_file := to_file filenii]> (fs w))
                    (<["out_files" := RStr out_file]> (results w)))
        else (inl path_name_error, w)
      else (inl (dimension_error (ndim (dataobj filenii))), w)
    else
      match four_to_three filenii with
      | inl e => (inl e, w)
      | inr files_3d =>
          write_frames globals (in_file self) (cwd runtime) 0 files_3d
            (mk_world (fs w) (<["out_files" := RList []]> (results w)))
      end.
Proof.
  unfold run_with, bind at 1, nb_load. rewrite Hf. cbv zeta. fold filenii.
  destruct (negb _).
  - destruct (accept_3D self && _); [|reflexivity].
    unfold bind, load_name. destruct (bool_decide _); [|reflexivity].
    reflexivity.
  - unfold bind, lift. destruct (four_to_three filenii); reflexivity.
Qed.

End split.

Lemma write_frames_no_path (in_file : path) (wd : string) (i : nat)
    (fr : image) (rest : list image) (w : world) :
  SplitSeries.write_frames module_globals in_file wd i (fr :: rest) w =
    (inl path_name_error, w).
Proof. reflexivity. Qed.

Lemma write_frames_ok (globals : list string) (in_file : path) (wd : string)
    (frames : list image) :
  "Path" ∈ globals ->
  forall (i : nat) (w : world) (l : list path),
    results w !! "out_files" = Some (RList l) ->
    exists w',
      SplitSeries.write_frames globals in_file wd i frames w = (inr tt, w') /\
      results w' !! "out_files"
        = Some (RList (l ++ (frame_path in_file wd <$> seq i (length frames)))) /\
      fs w' =
        fold_left (fun m (jf : nat * image) =>
                     <[frame_path in_file wd jf.1 := to_file jf.2]> m)
          (zip (seq i (length frames)) frames) (fs w).
Proof.
  intros Hg. induction frames as [|fr rest IH]; intros i w l Hl.
  - exists w. simpl. by rewrite app_nil_r.
  - simpl. unfold bind at 1, load_name.
    rewrite bool_decide_eq_true_2 by exact Hg.
    unfold ret, bind at 1, to_filename, bind at 1, append_result.
    cbn [results fs]. rewrite Hl.
    destruct (IH (S i)
                (mk_world
                   (<[frame_path in_file wd i := to_file fr]> (fs w))
                   (<["out_files" := RList (l ++ [frame_path in_file wd i])]>
                      (results w)))
                (l ++ [frame_path in_file wd i]))
      as (w' & Hrun & Hres & Hfs);
      [cbn [results]; by rewrite lookup_insert_eq|].
    exists w'. split; [exact Hrun|]. split.
    + rewrite Hres. simpl. by rewrite <- app_assoc.
    + rewrite Hfs. reflexivity.
Qed.

(** Whatever the global names, a failing loop has written nothing. *)
Lemma write_frames_error (globals : list string) (in_file : path) (wd : string)
    (i : nat) (frames : list image) (w w' : world) (l : list path) (e : exn) :
  results w !! "out_files" = Some (RList l) ->
  SplitSeries.write_frames globals in_file wd i frames w = (inl e, w') ->
  w' = w.
Proof.
  intros Hl Hrun. destruct (decide ("Path" ∈ globals)) as [Hg|Hg].
  - destruct (write_frames_ok globals in_file wd frames Hg i w l Hl) as (w2 & H2 & _).
    congruence.
  - destruct frames as [|fr rest]; [discriminate|].
    simpl in Hrun. unfold bind at 1, load_name in Hrun.
    rewrite bool_decide_eq_false_2 in Hrun by exact Hg.
    by inversion Hrun.
Qed.

Lemma squeeze_image_small (img : image) :
  coherent img -> ndim (dataobj img) < 4 -> squeeze_image img = img.
Proof.
  intros Hco Hn. unfold squeeze_image. unfold ndim in Hn.
  rewrite (proj2 (Nat.ltb_lt _ _) Hn), new_image_coherent by exact Hco.
  by destruct img.
Qed.

(** *** Frame names *)

Lemma zeros_parse (k : nat) (s : string) (d : Decimal.uint) :
  NilEmpty.uint_of_string s = Some d ->
  NilEmpty.uint_of_string (zeros k +:+ s) = Some (Nat.iter k Decimal.D0 d).
Proof.
  intros Hs. induction k as [|k IH]; [exact Hs|].
  change (zeros (S k) +:+ s) with (String "0"%char (zeros k +:+ s)).
  cbn [NilEmpty.uint_of_string]. by rewrite IH.
Qed.

Lemma of_uint_zeros (k : nat) (d : Decimal.uint) :
  Nat.of_uint (Nat.iter k Decimal.D0 d) = Nat.of_uint d.
Proof. induction k as [|k IH]; simpl; [reflexivity|]. exact IH. Qed.

(** Reading the digits of [{i:03}] gives [i] back. *)
Lemma fmt03_parse (i : nat) :
  Nat.of_uint <$> NilEmpty.uint_of_string (fmt03 i) = Some i.
Proof.
  unfold fmt03, dec.
  rewrite (zeros_parse _ _ _ (NilEmpty.usu (Nat.to_uint i))). simpl.
  by rewrite of_uint_zeros, Unsigned.of_to.
Qed.

Lemma fmt03_inj (i j : nat) : fmt03 i = fmt03 j -> i = j.
Proof.
  intros H. pose proof (fmt03_parse i) as Hi. rewrite H, fmt03_parse in Hi.
  by inversion Hi.
Qed.

Example fmt03_values :
  fmt03 <$> [0; 1; 2; 12; 999; 1000] = ["000"; "001"; "002"; "012"; "999"; "1000"].
Proof. reflexivity. Qed.

Lemma frame_path_inj (in_file : path) (wd : string) (i j : nat) :
  frame_path in_file wd i = frame_path in_file wd j -> i = j.
Proof.
  unfold frame_path, absolute, fname_presuffix. simpl.
  destruct (String.prefix "/" (p_dir in_file)); intros H; injection H as H;
    apply (inj (String.app (p_base in_file))) in H;
    apply (inj (String.app "_idx-")) in H; by apply fmt03_inj.
Qed.

Section written.

Context {V : Type}.
Variables (name : nat -> path) (file : V -> nifti_file).
Hypothesis name_inj : forall i j, name i = name j -> i = j.

Let write (m : gmap path nifti_file) (jf : nat * V) : gmap path nifti_file :=
  <[name jf.1 := file jf.2]> m.

Lemma fold_write_other (frames : list V) (start : nat) (m : gmap path nifti_file)
    (k : path) :
  (forall j, start <= j < start + length frames -> name j <> k) ->
  fold_left write (zip (seq start (length frames)) frames) m !! k = m !! k.
Proof.
  revert start m. induction frames as [|fr frames IH]; intros start m Hk;
    [reflexivity|].
  simpl. rewrite IH by (intros j Hj; apply Hk; simpl; lia).
  unfold write. simpl. apply lookup_insert_ne, Hk. simpl. lia.
Qed.

(** The [i]-th frame is found under the [i]-th name. *)
Lemma fold_write_lookup (frames : list V) (start : nat) (m : gmap path nifti_file)
    (i : nat) (fr : V) :
  frames !! i = Some fr ->
  fold_left write (zip (seq start (length frames)) frames) m !! name (start + i)
  = Some (file fr).
Proof using name_inj.
  revert start m i. induction frames as [|x frames IH]; intros start m i Hi;
    [discriminate|].
  simpl. destruct i as [|i]; simpl in Hi.
  - injection Hi as ->. rewrite Nat.add_0_r, fold_write_other.
    + unfold write. simpl. apply lookup_insert_eq.
    + intros j Hj Heq. apply name_inj in Heq. lia.
  - replace (start + S i) with (S start + i) by lia. by apply IH.
Qed.

End written.

(** With [Path] bound, a volume of four axes is written frame by frame, in
    the order of its last axis, under the names [_idx-000], [_idx-001], ... *)
Lemma split_4d_with_path (globals : list string) (self : SplitSeries.inputs)
    (runtime : runtime_t) (w : world) (f : nifti_file) :
  "Path" ∈ globals ->
  fs w !! SplitSeries.in_file self = Some f ->
  wf_array (f_data f) ->
  let filenii := squeeze_image (image_of_file f) in
  ndim (dataobj filenii) = 4 ->
  exists frames w',
    SplitSeries.run_with globals self runtime w = (inr tt, w') /\
    length frames = nth 3 (shape (dataobj filenii)) 0 /\
    (forall i fr, frames !! i = Some fr -> slice_of filenii i fr) /\
    results w' !! "out_files" =
      Some (RList (frame_path (SplitSeries.in_file self) (cwd runtime)
                     <$> seq 0 (length frames))) /\
    fs w' =
      fold_left (fun m (jf : nat * image) =>
                   <[frame_path (SplitSeries.in_file self) (cwd runtime) jf.1 :=
                       to_file jf.2]> m)
        (zip (seq 0 (length frames)) frames) (fs w) /\
    forall i fr, frames !! i = Some fr ->
      fs w' !! frame_path (SplitSeries.in_file self) (cwd runtime) i
      = Some (mk_file (hdr fr) (dataobj fr)).
Proof.
  intros Hg Hf Hwf filenii H4.
  pose proof (squeeze_image_coherent _ (image_of_file_coherent f)) as Hsc.
  pose proof (squeeze_image_wf _ (image_of_file_coherent f) Hwf) as Hsw.
  fold filenii in Hsc, Hsw.
  rewrite (split_run globals self runtime w f Hf). fold filenii.
  rewrite H4. simpl.
  destruct (four_to_three filenii) as [e|frames] eqn:H43.
  { rewrite (four_to_three_frames _ Hsc H4) in H43. discriminate. }
  destruct (four_to_three_slices _ _ Hsc Hsw H43) as (_ & Hlen & Hsl).
  destruct (write_frames_ok globals (SplitSeries.in_file self) (cwd runtime) frames Hg 0
              (mk_world (fs w) (<["out_files" := RList []]> (results w))) [])
    as (w' & Hrun & Hres & Hfs); [cbn [results]; by rewrite lookup_insert_eq|].
  exists frames, w'. split; [exact Hrun|]. split; [exact Hlen|].
  split; [exact Hsl|]. split; [exact Hres|]. split; [exact Hfs|].
  intros i fr Hi. rewrite Hfs. cbn [fs].
  assert (Hnat : native fr).
  { pose proof (squeeze_image_native _ (image_of_file_coherent f)
                  (image_of_file_native f)) as Hsn.
    apply (Forall_lookup_1 _ _ _ _ (four_to_three_native _ _ Hsc Hsn H43) Hi). }
  rewrite <- (to_file_native fr Hnat).
  apply (fold_write_lookup
           (frame_path (SplitSeries.in_file self) (cwd runtime))
           to_file
           (frame_path_inj _ _) frames 0 (fs w) i fr Hi).
Qed.

(** With [Path] bound and [accept_3D] set, a volume of three axes is
    written once, squeezed, as [_idx-000]. *)
Lemma split_3d_with_path (globals : list string) (self : SplitSeries.inputs)
    (runtime : runtime_t) (w : world) (f : nifti_file) :
  "Path" ∈ globals ->
  fs w !! SplitSeries.in_file self = Some f ->
  SplitSeries.accept_3D self = true ->
  let filenii := squeeze_image (image_of_file f) in
  ndim (dataobj filenii) = 3 ->
  let out_file := frame_path (SplitSeries.in_file self) (cwd runtime) 0 in
  SplitSeries.run_with globals self runtime w =
    (inr tt,
     mk_world (<[out_file := mk_file (f_hdr f) (dataobj filenii)]> (fs w))
              (<["out_files" := RStr out_file]> (results w))) /\
  p_base out_file = p_base (SplitSeries.in_file self) +:+ "_idx-000".
Proof.
  intros Hg Hf Ha filenii H3 out_file.
  destruct (squeeze_image_parts _ (image_of_file_coherent f)) as (_ & Hh & _).
  pose proof (squeeze_image_native _ (image_of_file_coherent f)
                (image_of_file_native f)) as Hsn.
  rewrite (split_run globals self runtime w f Hf). fold filenii.
  rewrite H3, Ha. simpl. rewrite bool_decide_eq_true_2 by exact Hg.
  fold filenii in Hh, Hsn. rewrite (to_file_native filenii Hsn), Hh.
  split; [reflexivity|].
  unfold out_file, frame_path, absolute. by destruct (String.prefix _ _).
Qed.

(** C5 (the code departs from it). For every input that has four axes once
    squeezed and at least one frame, [SplitSeries] raises a [NameError] on
    the first frame and writes no file: the name [Path] is used and never
    imported. *)
Theorem split_4d_name_error
    (self : SplitSeries.inputs) (runtime : runtime_t) (w : world) (f : nifti_file) :
  fs w !! SplitSeries.in_file self = Some f ->
  ndim (dataobj (squeeze_image (image_of_file f))) = 4 ->
  0 < nth 3 (shape (dataobj (squeeze_image (image_of_file f)))) 0 ->
  SplitSeries._run_interface self runtime w =
    (inl path_name_error,
     mk_world (fs w) (<["out_files" := RList []]> (results w))).
Proof.
  intros Hf H4 Hn.
  pose proof (squeeze_image_coherent _ (image_of_file_coherent f)) as Hsc.
  unfold SplitSeries._run_interface.
  rewrite (split_run module_globals self runtime w f Hf), H4. simpl.
  rewrite (four_to_three_frames _ Hsc H4).
  destruct (nth 3 _ 0) as [|t]; [lia|]. reflexivity.
Qed.

(** C6 (the code departs from it). On an input that has three axes once
    squeezed, [SplitSeries] raises the dimension error when [accept_3D] is
    false, and a [NameError] when it is true; on an input that has neither
    three nor four axes it raises the dimension error.  No file is written
    in any of the three cases. *)
Theorem split_3d_or_other
    (self : SplitSeries.inputs) (runtime : runtime_t) (w : world) (f : nifti_file) :
  fs w !! SplitSeries.in_file self = Some f ->
  let n := ndim (dataobj (squeeze_image (image_of_file f))) in
  (n = 3 -> SplitSeries.accept_3D self = false ->
   SplitSeries._run_interface self runtime w =
     (inl (SplitSeries.dimension_error 3), w)) /\
  (n = 3 -> SplitSeries.accept_3D self = true ->
   SplitSeries._run_interface self runtime w = (inl path_name_error, w)) /\
  (n <> 3 -> n <> 4 ->
   SplitSeries._run_interface self runtime w =
     (inl (SplitSeries.dimension_error n), w)).
Proof.
  intros Hf n. unfold SplitSeries._run_interface.
  rewrite (split_run module_globals self runtime w f Hf). fold n.
  split; [|split].
  - intros -> ->. reflexivity.
  - intros -> ->. reflexivity.
  - intros H3 H4.
    rewrite (proj2 (Nat.eqb_neq n 4) H4), (proj2 (Nat.eqb_neq n 3) H3). simpl.
    by rewrite andb_false_r.
Qed.

(** ** Merging, then splitting *)

Lemma volumes_groups (allow : bool) (w : world) (shape0 : list nat)
    (pl : list path) (fl : list nifti_file) :
  length shape0 = 3 ->
  Forall2 (fun p f => fs w !! p = Some f) pl fl ->
  Forall (fun f => shape (f_data f) = shape0) fl ->
  Forall2 (fun p g => exists f, fs w !! p = Some f /\
                                frames_from allow (image_of_file f) g)
    pl ((fun f => [image_of_file f]) <$> fl).
Proof.
  intros H3 Hpf. induction Hpf as [|p f pl fl Hp _ IH]; intros Hall; [constructor|].
  rewrite fmap_cons. inversion Hall as [|? ? Hs Hrest]; subst.
  constructor; [|by apply IH].
  exists f. split; [exact Hp|]. left.
  assert (Hsq : squeeze_image (image_of_file f) = image_of_file f).
  { apply squeeze_image_small; [reflexivity|]. unfold ndim. simpl.
    rewrite H3. lia. }
  cbv zeta. rewrite Hsq. split; [|reflexivity]. unfold ndim. simpl. exact H3.
Qed.

Lemma fold_frames_files (name : nat -> path) (aff : option affine_t) (h : header)
    (idxs : list nat) (files : list nifti_file) (m : gmap path nifti_file) :
  fold_left (fun m (jf : nat * image) => <[name jf.1 := to_file jf.2]> m)
    (zip idxs ((fun f => mk_image (f_data f) (data_dtype h) aff h) <$> files)) m
  = fold_left (fun m (jf : nat * nifti_file) =>
                 <[name jf.1 := mk_file h (f_data jf.2)]> m)
      (zip idxs files) m.
Proof.
  revert files m. induction idxs as [|i idxs IH]; intros [|f files] m;
    try reflexivity.
  simpl. rewrite (to_file_native (mk_image _ _ _ _)) by reflexivity. apply IH.
Qed.

Section roundtrip.

Variables (runtime : runtime_t) (w : world) (allow : bool).
Variables (p0 : path) (ps : list path) (f0 : nifti_file) (files : list nifti_file).
Hypothesis Hfiles : Forall2 (fun p f => fs w !! p = Some f) (p0 :: ps) (f0 :: files).
Hypothesis H3 : ndim (f_data f0) = 3.
Hypothesis Hsame :
  Forall (fun f => shape (f_data f) = shape (f_data f0) /\
                   all_equal (best_affine (f_hdr f)) (best_affine (f_hdr f0)) = true)
    files.

Let merged_path : path := fname_presuffix p0 "_merged" None.
Let stack : ndarray float64 :=
  stack_last (shape (f_data f0)) (f_data <$> f0 :: files).
Let merged : nifti_file :=
  to_file (mk_image stack float64_ (Some (best_affine (f_hdr f0))) (f_hdr f0)).

Lemma same_first :
  Forall (fun f => shape (f_data f) = shape (f_data f0) /\
                   all_equal (best_affine (f_hdr f)) (best_affine (f_hdr f0)) = true)
    (f0 :: files).
Proof using Hsame.
  constructor; [|exact Hsame]. split; [reflexivity|].
  apply (affine_eq_refl_coherent (image_of_file f0)). reflexivity.
Qed.

(** Volumes of three axes, one shape and equal affines are merged into the
    stack of their data, a float64 array written under the first one's
    header. *)
Lemma merge_volumes :
  MergeSeries._run_interface (MergeSeries.mk_inputs (p0 :: ps) allow) runtime w =
    (inr tt,
     mk_world (<[merged_path := merged]> (fs w))
              (<["out_file" := RStr merged_path]> (results w))).
Proof using Hfiles H3 Hsame.
  rewrite merge_run. cbn [MergeSeries.in_files MergeSeries.allow_4D].
  assert (Hgroups :
    Forall2 (fun p g => exists f, fs w !! p = Some f /\
                                  frames_from allow (image_of_file f) g)
      (p0 :: ps) ((fun f => [image_of_file f]) <$> f0 :: files)).
  { apply (volumes_groups allow w (shape (f_data f0))); [exact H3|exact Hfiles|].
    eapply Forall_impl; [exact same_first|]. simpl. tauto. }
  rewrite (collect_ok _ _ _ _ [] Hgroups), app_nil_l.
  assert (Hcat : concat ((fun f => [image_of_file f]) <$> f0 :: files)
                 = image_of_file <$> f0 :: files).
  { generalize (f0 :: files). intros l. induction l as [|x l IH]; [reflexivity|].
    rewrite !fmap_cons. simpl. f_equal. exact IH. }
  rewrite Hcat. rewrite fmap_cons. unfold concat_images.
  rewrite <- fmap_cons.
  assert (Hck : concat_check (image_of_file f0) (image_of_file <$> f0 :: files) = None).
  { apply concat_check_none, Forall_fmap. eapply Forall_impl; [exact same_first|].
    simpl. tauto. }
  rewrite Hck. rewrite new_image_coherent by reflexivity.
  rewrite <- list_fmap_compose. reflexivity.
Qed.

Hypothesis Hmany : files <> [].

Lemma merged_shape :
  shape (f_data merged) = shape (f_data f0) ++ [S (length files)] /\
  length (shape (f_data f0)) = 3 /\ S (length files) <> 1.
Proof using H3 Hmany.
  unfold merged, to_file. cbn [f_data dataobj]. rewrite stored_as_shape.
  unfold stack, stack_last. simpl. rewrite length_fmap.
  split; [reflexivity|]. split; [exact H3|].
  intros Hlen. apply Hmany, nil_length_inv. lia.
Qed.

Lemma merged_squeeze :
  squeeze_image (image_of_file merged) = image_of_file merged.
Proof using H3 Hmany.
  destruct merged_shape as (Hs & Hl & Hn).
  by apply (squeeze_image_4d _ (image_of_file_coherent merged) _ _ Hs Hl Hn).
Qed.

(** Splitting what was merged stops on the unbound name, for any
    [accept_3D] and any earlier results. *)
Lemma split_merged_name_error (accept : bool) (res : gmap string rvalue) (fs1 : gmap path nifti_file) :
  fs1 !! merged_path = Some merged ->
  SplitSeries._run_interface (SplitSeries.mk_inputs merged_path accept) runtime
    (mk_world fs1 res)
  = (inl path_name_error, mk_world fs1 (<["out_files" := RList []]> res)).
Proof using H3 Hmany.
  intros Hm. unfold SplitSeries._run_interface.
  rewrite (split_run module_globals (SplitSeries.mk_inputs merged_path accept)
             runtime (mk_world fs1 res) merged Hm).
  destruct merged_shape as (Hs & Hl & Hn).
  rewrite merged_squeeze.
  assert (H4 : ndim (dataobj (image_of_file merged)) = 4).
  { unfold ndim. cbn [dataobj image_of_file]. rewrite Hs, length_app, Hl.
    reflexivity. }
  rewrite H4. simpl negb. cbv iota.
  rewrite (four_to_three_frames _ (image_of_file_coherent merged) H4).
  cbn [dataobj image_of_file]. rewrite Hs.
  rewrite app_nth2 by lia. rewrite Hl. simpl nth.
  reflexivity.
Qed.

Hypothesis Hwf : Forall (fun f => wf_array (f_data f)) (f0 :: files).
Hypothesis Hfloat : is_float_dtype (data_dtype (f_hdr f0)) = true.

(** Under a floating dtype tag the merged file holds the stack as it is. *)
Lemma merged_exact : merged = mk_file (f_hdr f0) stack.
Proof using Hfloat. unfold merged. by rewrite to_file_float. Qed.

Lemma merged_frames :
  four_to_three (image_of_file merged) =
    inr ((fun f =>
            mk_image (f_data f) (data_dtype (f_hdr f0))
              (Some (best_affine (f_hdr f0))) (f_hdr f0))
           <$> f0 :: files).
Proof using H3 Hsame Hmany Hwf Hfloat.
  destruct merged_shape as (Hs & Hl & Hn).
  assert (H4 : ndim (dataobj (image_of_file merged)) = 4).
  { unfold ndim. cbn [dataobj image_of_file]. rewrite Hs, length_app, Hl.
    reflexivity. }
  rewrite (four_to_three_frames _ (image_of_file_coherent merged) H4).
  cbn [dataobj image_of_file affine hdr]. rewrite Hs.
  rewrite app_nth2 by lia. rewrite Hl. simpl nth. f_equal.
  assert (Harrs : Forall (fun a : ndarray float64 =>
                            wf_array a /\ shape a = shape (f_data f0))
                    (f_data <$> f0 :: files)).
  { apply Forall_fmap. apply Forall_forall. intros f Hin.
    apply (proj1 (Forall_forall _ _) Hwf) in Hin as Hw.
    apply (proj1 (Forall_forall _ _) same_first) in Hin as [Hsf _]. by split. }
  apply list_eq. intros i. rewrite !list_lookup_fmap.
  destruct (decide (i < S (length files))) as [Hi|Hi].
  - rewrite lookup_seq_lt by exact Hi. simpl.
    destruct (lookup_lt_is_Some_2 (f0 :: files) i) as [f Hfi]; [simpl; lia|].
    rewrite Hfi. simpl. do 2 f_equal. rewrite (stored_as_float _ _ _ Hfloat).
    unfold stack.
    replace (S (length files)) with (length (f_data <$> f0 :: files))
      by (by rewrite length_fmap).
    apply (take_last_axis_stack _ _ Harrs).
    by rewrite list_lookup_fmap, Hfi.
  - rewrite lookup_seq_ge by lia.
    rewrite lookup_ge_None_2 by (simpl; lia). reflexivity.
Qed.

(** With [Path] bound, splitting what was merged writes the volumes back in
    their order, under the first one's header, as [_idx-000], [_idx-001],
    ... *)
Lemma split_merged_with_path (globals : list string) (accept : bool)
    (res : gmap string rvalue) (fs1 : gmap path nifti_file) :
  "Path" ∈ globals ->
  fs1 !! merged_path = Some merged ->
  exists w',
    SplitSeries.run_with globals (SplitSeries.mk_inputs merged_path accept) runtime
      (mk_world fs1 res) = (inr tt, w') /\
    results w' !! "out_files" =
      Some (RList (frame_path merged_path (cwd runtime)
                     <$> seq 0 (S (length files)))) /\
    fs w' =
      fold_left (fun m (jf : nat * nifti_file) =>
                   <[frame_path merged_path (cwd runtime) jf.1 :=
                       mk_file (f_hdr f0) (f_data jf.2)]> m)
        (zip (seq 0 (S (length files))) (f0 :: files)) fs1.
Proof using H3 Hsame Hmany Hwf Hfloat.
  intros Hg Hm.
  rewrite (split_run globals (SplitSeries.mk_inputs merged_path accept)
             runtime (mk_world fs1 res) merged Hm).
  destruct merged_shape as (Hs & Hl & Hn).
  rewrite merged_squeeze.
  assert (H4 : ndim (dataobj (image_of_file merged)) = 4).
  { unfold ndim. cbn [dataobj image_of_file]. rewrite Hs, length_app, Hl.
    reflexivity. }
  rewrite H4. simpl negb. cbv iota. rewrite merged_frames.
  cbn [SplitSeries.in_file].
  destruct (write_frames_ok globals merged_path (cwd runtime)
              ((fun f =>
                  mk_image (f_data f) (data_dtype (f_hdr f0))
                    (Some (best_affine (f_hdr f0))) (f_hdr f0))
                 <$> f0 :: files) Hg 0
              (mk_world fs1 (<["out_files" := RList []]> res)) [])
    as (w' & Hrun & Hres & Hfs); [cbn [results]; by rewrite lookup_insert_eq|].
  rewrite length_fmap in Hres, Hfs. simpl length in Hres, Hfs.
  exists w'. split; [exact Hrun|]. split; [exact Hres|].
  rewrite Hfs. cbn [fs]. apply fold_frames_files.
Qed.

End roundtrip.

(** With [Path] bound and a floating dtype tag, three volumes of one
    geometry that are merged and then split come back in their order as
    [_idx-000], [_idx-001], [_idx-002], with their own voxels and the first
    volume's header. *)
Lemma roundtrip_with_path (globals : list string) (runtime : runtime_t) (w : world)
    (allow accept : bool) (pa pb pc : path) (fa fb fc : nifti_file) :
  "Path" ∈ globals ->
  fs w !! pa = Some fa -> fs w !! pb = Some fb -> fs w !! pc = Some fc ->
  wf_array (f_data fa) -> wf_array (f_data fb) -> wf_array (f_data fc) ->
  ndim (f_data fa) = 3 ->
  shape (f_data fb) = shape (f_data fa) ->
  shape (f_data fc) = shape (f_data fa) ->
  all_equal (best_affine (f_hdr fb)) (best_affine (f_hdr fa)) = true ->
  all_equal (best_affine (f_hdr fc)) (best_affine (f_hdr fa)) = true ->
  is_float_dtype (data_dtype (f_hdr fa)) = true ->
  let merged_path := fname_presuffix pa "_merged" None in
  let idx := frame_path merged_path (cwd runtime) in
  exists w1 w2,
    MergeSeries._run_interface (MergeSeries.mk_inputs [pa; pb; pc] allow) runtime w
      = (inr tt, w1) /\
    SplitSeries.run_with globals (SplitSeries.mk_inputs merged_path accept) runtime
      (mk_world (fs w1) ∅) = (inr tt, w2) /\
    results w2 !! "out_files" = Some (RList [idx 0; idx 1; idx 2]) /\
    fs w2 =
      <[idx 2 := mk_file (f_hdr fa) (f_data fc)]>
        (<[idx 1 := mk_file (f_hdr fa) (f_data fb)]>
           (<[idx 0 := mk_file (f_hdr fa) (f_data fa)]> (fs w1))) /\
    fs w2 !! idx 0 = Some (mk_file (f_hdr fa) (f_data fa)) /\
    fs w2 !! idx 1 = Some (mk_file (f_hdr fa) (f_data fb)) /\
    fs w2 !! idx 2 = Some (mk_file (f_hdr fa) (f_data fc)).
Proof.
  intros Hg Ha Hb Hc Hwa Hwb Hwc H3 Hsb Hsc Heb Hec Hfl merged_path idx.
  assert (Hfiles : Forall2 (fun p f => fs w !! p = Some f) [pa; pb; pc] [fa; fb; fc])
    by (by repeat constructor).
  assert (Hsame : Forall (fun f => shape (f_data f) = shape (f_data fa) /\
                    all_equal (best_affine (f_hdr f)) (best_affine (f_hdr fa)) = true)
                    [fb; fc]) by (by repeat constructor).
  assert (Hwf : Forall (fun f => wf_array (f_data f)) [fa; fb; fc])
    by (by repeat constructor).
  eexists. 
  destruct (split_merged_with_path runtime pa fa [fb; fc] H3 Hsame
              ltac:(discriminate) Hwf Hfl globals accept ∅
              (<[merged_path :=
                   to_file
                     (mk_image
                        (stack_last (shape (f_data fa)) (f_data <$> [fa; fb; fc]))
                        float64_ (Some (best_affine (f_hdr fa))) (f_hdr fa))]> (fs w))
              Hg)
    as (w2 & Hrun & Hres & Hfs); [by rewrite lookup_insert_eq|].
  exists w2. split; [apply (merge_volumes runtime w allow pa [pb; pc] fa [fb; fc] Hfiles H3 Hsame)|].
  split; [exact Hrun|]. split; [exact Hres|]. split; [exact Hfs|].
  assert (Hne : forall i j, i <> j -> idx i <> idx j).
  { intros i j Hij Heq. apply Hij. by eapply frame_path_inj. }
  rewrite Hfs. simpl. split; [|split].
  - rewrite !lookup_insert_ne by (apply Hne; lia). apply lookup_insert_eq.
  - rewrite lookup_insert_ne by (apply Hne; lia). apply lookup_insert_eq.
  - apply lookup_insert_eq.
Qed.

(** C1 (the code departs from it). Three volumes of three axes, one shape
    and equal affines are merged without error, and splitting the merged
    file raises a [NameError] before any frame is written: the name [Path]
    is used and never imported. *)
Theorem roundtrip_name_error (runtime : runtime_t) (w : world)
    (allow accept : bool) (pa pb pc : path) (fa fb fc : nifti_file) :
  fs w !! pa = Some fa -> fs w !! pb = Some fb -> fs w !! pc = Some fc ->
  ndim (f_data fa) = 3 ->
  shape (f_data fb) = shape (f_data fa) ->
  shape (f_data fc) = shape (f_data fa) ->
  all_equal (best_affine (f_hdr fb)) (best_affine (f_hdr fa)) = true ->
  all_equal (best_affine (f_hdr fc)) (best_affine (f_hdr fa)) = true ->
  let merged_path := fname_presuffix pa "_merged" None in
  exists w1,
    MergeSeries._run_interface (MergeSeries.mk_inputs [pa; pb; pc] allow) runtime w
      = (inr tt, w1) /\
    SplitSeries._run_interface (SplitSeries.mk_inputs merged_path accept) runtime
      (mk_world (fs w1) ∅)
      = (inl path_name_error, mk_world (fs w1) (<["out_files" := RList []]> ∅)).
Proof.
  intros Ha Hb Hc H3 Hsb Hsc Heb Hec merged_path.
  assert (Hfiles : Forall2 (fun p f => fs w !! p = Some f) [pa; pb; pc] [fa; fb; fc])
    by (by repeat constructor).
  assert (Hsame : Forall (fun f => shape (f_data f) = shape (f_data fa) /\
                    all_equal (best_affine (f_hdr f)) (best_affine (f_hdr fa)) = true)
                    [fb; fc]) by (by repeat constructor).
  eexists. split.
  - apply (merge_volumes runtime w allow pa [pb; pc] fa [fb; fc] Hfiles H3 Hsame).
  - cbn [fs].
    apply (split_merged_name_error runtime pa fa [fb; fc] H3 ltac:(discriminate)).
    by rewrite lookup_insert_eq.
Qed.

(** ** Failure leaves the files alone *)

Lemma apply_mask_error_fs (self : ApplyMask.inputs) (runtime : runtime_t)
    (w w' : world) (e : exn) :
  ApplyMask._run_interface self runtime w = (inl e, w') -> fs w' = fs w.
Proof.
  destruct (fs w !! ApplyMask.in_file self) as [fi|] eqn:Hi.
  - destruct (fs w !! ApplyMask.in_mask self) as [fm|] eqn:Hm.
    + rewrite (apply_mask_run self runtime w fi fm Hi Hm).
      destruct (negb (shape_eqb _ _)); [by intros [= _ <-]|].
      destruct (negb (allclose _ _)); [by intros [= _ <-]|].
      destruct (multiply _ _); [by intros [= _ <-]|discriminate].
    + unfold ApplyMask._run_interface, bind, nb_load. rewrite Hi, Hm.
      by intros [= _ <-].
  - unfold ApplyMask._run_interface, bind, nb_load. rewrite Hi.
    by intros [= _ <-].
Qed.

Lemma binarize_error_fs (self : Binarize.inputs) (runtime : runtime_t)
    (w w' : world) (e : exn) :
  Binarize._run_interface self runtime w = (inl e, w') -> fs w' = fs w.
Proof.
  unfold Binarize._run_interface, bind, nb_load.
  destruct (fs w !! Binarize.in_file self) as [f|] eqn:Hf.
  - discriminate.
  - by intros [= _ <-].
Qed.

Lemma split_error_fs (globals : list string) (self : SplitSeries.inputs)
    (runtime : runtime_t) (w w' : world) (e : exn) :
  SplitSeries.run_with globals self runtime w = (inl e, w') -> fs w' = fs w.
Proof.
  destruct (fs w !! SplitSeries.in_file self) as [f|] eqn:Hf.
  - rewrite (split_run globals self runtime w f Hf).
    destruct (negb _).
    + destruct (_ && _); [|by intros [= _ <-]].
      destruct (bool_decide _); [discriminate|by intros [= _ <-]].
    + destruct (four_to_three _) as [e1|frames]; [by intros [= _ <-]|].
      intros Hrun. eapply write_frames_error in Hrun.
      * by rewrite Hrun.
      * cbn [results]. by rewrite lookup_insert_eq.
  - unfold SplitSeries.run_with, bind, nb_load. rewrite Hf.
    by intros [= _ <-].
Qed.

(** C9. Each of the four methods that raises leaves the file system as it
    found it: every test that can fail comes before the first file is
    written.  For [SplitSeries] this holds whatever the global names are. *)
Theorem no_write_on_error :
  (forall self runtime w e w',
     ApplyMask._run_interface self runtime w = (inl e, w') -> fs w' = fs w) /\
  (forall self runtime w e w',
     Binarize._run_interface self runtime w = (inl e, w') -> fs w' = fs w) /\
  (forall globals self runtime w e w',
     SplitSeries.run_with globals self runtime w = (inl e, w') -> fs w' = fs w) /\
  (forall self runtime w e w',
     MergeSeries._run_interface self runtime w = (inl e, w') -> fs w' = fs w).
Proof.
  split; [|split; [|split]].
  - intros self runtime w e w'. apply apply_mask_error_fs.
  - intros self runtime w e w'. apply binarize_error_fs.
  - intros globals self runtime w e w'. apply split_error_fs.
  - intros self runtime w e w' H. by rewrite (merge_error_world _ _ _ _ _ H).
Qed.

(** * Further properties *)

(** ** Flat indices *)





(** ** ApplyMask, voxel by voxel *)



Section apply_mask_flat.

Variables (fi fm : nifti_file) (t : float64).
Hypothesis Hwi : wf_array (f_data fi).
Hypothesis Hwm : wf_array (f_data fm).
Hypothesis Hn : ndim (f_data fi) <= 4.
Hypothesis Hs : shape (f_data fm) = take 3 (shape (f_data fi)).

Let msk : ndarray bool := greater (f_data fm) t.
Let k : nat := size_of (drop 3 (shape (f_data fi))).



End apply_mask_flat.



(** ** Output names *)

Lemma string_app_nil_r (s : string) : s +:+ "" = s.
Proof.
  induction s as [|c s IH]; [reflexivity|].
  change (String c (s +:+ "") = String c s). by rewrite IH.
Qed.

Lemma presuffix_ne (p : path) (suffix : string) (d : option string) :
  suffix <> "" -> fname_presuffix p suffix d <> p.
Proof.
  intros Hs H. destruct p as [dir base ext]. unfold fname_presuffix in H.
  simpl in H. injection H as _ H. apply Hs.
  rewrite <- (string_app_nil_r base) in H at 2.
  by apply (inj (String.app base)) in H.
Qed.

Lemma apply_mask_keeps_image (self : ApplyMask.inputs) (runtime : runtime_t)
    (w w' : world) (r : exn + unit) :
  ApplyMask._run_interface self runtime w = (r, w') ->
  fs w' !! ApplyMask.in_file self = fs w !! ApplyMask.in_file self.
Proof.
  intros Hrun. destruct r as [e|[]].
  { by rewrite (apply_mask_error_fs _ _ _ _ _ Hrun). }
  destruct (fs w !! ApplyMask.in_file self) as [fi|] eqn:Hi.
  2:{ unfold ApplyMask._run_interface, bind, nb_load in Hrun.
      rewrite Hi in Hrun. discriminate. }
  destruct (fs w !! ApplyMask.in_mask self) as [fm|] eqn:Hm.
  2:{ unfold ApplyMask._run_interface, bind, nb_load in Hrun.
      rewrite Hi, Hm in Hrun. discriminate. }
  rewrite (apply_mask_run self runtime w fi fm Hi Hm) in Hrun.
  destruct (negb (shape_eqb _ _)); [discriminate|].
  destruct (negb (allclose _ _)); [discriminate|].
  destruct (multiply _ _); [discriminate|].
  injection Hrun as <-. cbn [fs].
  rewrite lookup_insert_ne by (by apply presuffix_ne). exact Hi.
Qed.

(** X3. The image given to [ApplyMask], the image given to [Binarize] and
    the first input of [MergeSeries] are never overwritten, whether the run
    succeeds or raises: the output names differ from them by a suffix. *)
Theorem inputs_not_overwritten :
  (forall self runtime w r w',
     ApplyMask._run_interface self runtime w = (r, w') ->
     fs w' !! ApplyMask.in_file self = fs w !! ApplyMask.in_file self) /\
  (forall self runtime w r w',
     Binarize._run_interface self runtime w = (r, w') ->
     fs w' !! Binarize.in_file self = fs w !! Binarize.in_file self) /\
  (forall self runtime w r w' f0,
     MergeSeries._run_interface self runtime w = (r, w') ->
     head (MergeSeries.in_files self) = Some f0 ->
     fs w' !! f0 = fs w !! f0).
Proof.
  split; [|split].
  - intros self runtime w r w'. apply apply_mask_keeps_image.
  - intros self runtime w r w' Hrun.
    destruct (fs w !! Binarize.in_file self) as [f|] eqn:Hf.
    + rewrite (binarize_run self runtime w f Hf) in Hrun.
      injection Hrun as _ <-. cbn [fs].
      rewrite !lookup_insert_ne by (by apply presuffix_ne). exact Hf.
    + unfold Binarize._run_interface, bind, nb_load in Hrun. rewrite Hf in Hrun.
      by injection Hrun as _ <-.
  - intros self runtime w r w' f0 Hrun Hhead. destruct r as [e|[]].
    { by rewrite (merge_error_world _ _ _ _ _ Hrun). }
    rewrite merge_run in Hrun.
    destruct (MergeSeries.in_files self) as [|f0' rest]; [discriminate|].
    destruct (MergeSeries.collect _ _ _ w) as [[e|l] w1]; [discriminate|].
    destruct (concat_images l); [discriminate|].
    injection Hhead as ->. injection Hrun as <-. cbn [fs].
    by rewrite lookup_insert_ne by (by apply presuffix_ne).
Qed.

(** ** Binarize *)

(** X4. Under a floating dtype tag, the masked output of [Binarize] holds
    no NaN: each of its voxels either exceeds the threshold or is exactly
    0. *)
Theorem binarize_masked_voxels
    (self : Binarize.inputs) (runtime : runtime_t) (w : world) (f : nifti_file) :
  fs w !! Binarize.in_file self = Some f ->
  is_float_dtype (data_dtype (f_hdr f)) = true ->
  let out_file :=
    fname_presuffix (Binarize.in_file self) "_masked" (Some (cwd runtime)) in
  exists masked,
    fs (snd (Binarize._run_interface self runtime w)) !! out_file = Some masked /\
    length (flat (f_data masked)) = length (flat (f_data f)) /\
    Forall (fun y => y <> NaN /\
                     (fgt y (Binarize.thresh_low self) = true \/ y = Fin 0))
      (flat (f_data masked)).
Proof.
  intros Hf Hfl out_file. rewrite (binarize_run self runtime w f Hf). cbn [snd fs].
  rewrite (to_file_float (mk_image _ _ _ _)) by exact Hfl.
  eexists. split.
  { rewrite lookup_insert_ne
      by (intros E; by apply (presuffix_masked_ne_mask _ _ (eq_sym E))).
    apply lookup_insert_eq. }
  cbn [f_data flat dataobj]. split; [by rewrite length_fmap|].
  apply Forall_fmap, Forall_forall. intros x _. simpl.
  destruct (fgt x (Binarize.thresh_low self)) eqn:Hx.
  - split; [|by left]. intros ->. discriminate.
  - split; [discriminate|by right].
Qed.

Section binarize_again.

Variables (self : Binarize.inputs) (runtime : runtime_t) (w : world) (f : nifti_file).
Hypothesis Hf : fs w !! Binarize.in_file self = Some f.
Hypothesis Hfloat : is_float_dtype (data_dtype (f_hdr f)) = true.

Let t : float64 := Binarize.thresh_low self.
Let out1 : path :=
  fname_presuffix (Binarize.in_file self) "_masked" (Some (cwd runtime)).
Let mask1 : path :=
  fname_presuffix (Binarize.in_file self) "_mask" (Some (cwd runtime)).
Let masked : nifti_file :=
  mk_file (f_hdr f)
    (mk_ndarray (shape (f_data f))
       ((fun x => if fgt x t then x else Fin 0) <$> flat (f_data f))).
Let w1 : world := snd (Binarize._run_interface self runtime w).

Lemma binarize_first :
  Binarize._run_interface self runtime w = (inr tt, w1) /\
  fs w1 !! out1 = Some masked.
Proof using Hf Hfloat.
  unfold w1. rewrite (binarize_run self runtime w f Hf). split; [reflexivity|].
  cbn [snd fs].
  rewrite lookup_insert_ne
    by (intros E; by apply (presuffix_masked_ne_mask _ _ (eq_sym E))).
  rewrite lookup_insert_eq. by rewrite (to_file_float (mk_image _ _ _ _)).
Qed.

(** The second pass, on the masked output of the first. *)
Lemma binarize_second :
  Binarize._run_interface (Binarize.mk_inputs out1 t) runtime w1 =
    (inr tt,
     mk_world
       (<[fname_presuffix out1 "_mask" (Some (cwd runtime)) :=
            mk_file (mk_header uint8 (best_affine (f_hdr f)) (descrip (f_hdr f)))
              (mk_ndarray (shape (f_data f))
                 ((fun x => of_bool (fgt (if fgt x t then x else Fin 0) t))
                    <$> flat (f_data f)))]>
          (<[fname_presuffix out1 "_masked" (Some (cwd runtime)) :=
               mk_file (f_hdr f)
                 (mk_ndarray (shape (f_data f))
                    ((fun x => let y := if fgt x t then x else Fin 0 in
                               if fgt y t then y else Fin 0)
                       <$> flat (f_data f)))]>
             (fs w1)))
       (<["out_mask" := RStr (fname_presuffix out1 "_mask" (Some (cwd runtime)))]>
          (<["out_file" := RStr (fname_presuffix out1 "_masked" (Some (cwd runtime)))]>
             (results w1)))).
Proof using Hf Hfloat.
  destruct binarize_first as [_ H1].
  rewrite (binarize_run (Binarize.mk_inputs out1 t) runtime w1 masked H1).
  rewrite (to_file_float (mk_image _ _ _ _)) by exact Hfloat.
  cbn [Binarize.in_file Binarize.thresh_low masked f_hdr f_data shape flat dataobj hdr].
  by rewrite <- !list_fmap_compose.
Qed.

End binarize_again.

(** X5. Under a floating dtype tag and when 0 does not exceed the
    threshold, [Binarize] is idempotent: run on its own masked output with
    the same threshold, it writes the same masked file and the same mask
    file again. *)
Theorem binarize_twice
    (self : Binarize.inputs) (runtime : runtime_t) (w : world) (f : nifti_file) :
  fs w !! Binarize.in_file self = Some f ->
  is_float_dtype (data_dtype (f_hdr f)) = true ->
  fgt (Fin 0) (Binarize.thresh_low self) = false ->
  let out1 :=
    fname_presuffix (Binarize.in_file self) "_masked" (Some (cwd runtime)) in
  let mask1 :=
    fname_presuffix (Binarize.in_file self) "_mask" (Some (cwd runtime)) in
  exists masked mask w1 w2,
    Binarize._run_interface self runtime w = (inr tt, w1) /\
    fs w1 !! out1 = Some masked /\
    fs w1 !! mask1 = Some mask /\
    Binarize._run_interface (Binarize.mk_inputs out1 (Binarize.thresh_low self))
      runtime w1 = (inr tt, w2) /\
    fs w2 !! fname_presuffix out1 "_masked" (Some (cwd runtime)) = Some masked /\
    fs w2 !! fname_presuffix out1 "_mask" (Some (cwd runtime)) = Some mask.
Proof.
  intros Hf Hfl H0 out1 mask1.
  destruct (binarize_first self runtime w f Hf Hfl) as [Hrun1 H1].
  pose proof (binarize_second self runtime w f Hf Hfl) as Hrun2.
  do 4 eexists. split; [exact Hrun1|]. split; [exact H1|].
  split.
  { rewrite (binarize_run self runtime w f Hf). cbn [snd fs].
    apply lookup_insert_eq. }
  split; [exact Hrun2|]. cbn [fs]. split.
  - rewrite lookup_insert_ne
      by (intros E; by apply (presuffix_masked_ne_mask _ _ (eq_sym E))).
    rewrite lookup_insert_eq. do 3 f_equal.
    apply list_fmap_ext. intros _ x _. simpl.
    destruct (fgt x (Binarize.thresh_low self)) eqn:Hx; [by rewrite Hx|].
    by rewrite H0.
  - rewrite lookup_insert_eq. do 3 f_equal.
    apply list_fmap_ext. intros _ x _. simpl.
    destruct (fgt x (Binarize.thresh_low self)) eqn:Hx; [by rewrite Hx|].
    by rewrite H0.
Qed.

(** X6. Under a floating dtype tag, when 0 exceeds the threshold (a
    negative threshold), the masked output no longer carries the mask: every
    voxel of it exceeds the threshold, so a second pass writes a mask of
    ones only. *)
Theorem binarize_twice_negative
    (self : Binarize.inputs) (runtime : runtime_t) (w : world) (f : nifti_file) :
  fs w !! Binarize.in_file self = Some f ->
  is_float_dtype (data_dtype (f_hdr f)) = true ->
  fgt (Fin 0) (Binarize.thresh_low self) = true ->
  let out1 :=
    fname_presuffix (Binarize.in_file self) "_masked" (Some (cwd runtime)) in
  exists w1 w2 mask2,
    Binarize._run_interface self runtime w = (inr tt, w1) /\
    Binarize._run_interface (Binarize.mk_inputs out1 (Binarize.thresh_low self))
      runtime w1 = (inr tt, w2) /\
    fs w2 !! fname_presuffix out1 "_mask" (Some (cwd runtime)) = Some mask2 /\
    shape (f_data mask2) = shape (f_data f) /\
    flat (f_data mask2) = replicate (length (flat (f_data f))) (Fin 1).
Proof.
  intros Hf Hfl H0 out1.
  destruct (binarize_first self runtime w f Hf Hfl) as [Hrun1 H1].
  pose proof (binarize_second self runtime w f Hf Hfl) as Hrun2.
  do 3 eexists. split; [exact Hrun1|]. split; [exact Hrun2|].
  cbn [fs]. split; [apply lookup_insert_eq|]. cbn [f_data shape flat].
  split; [reflexivity|].
  generalize (flat (f_data f)). clear -H0. intros l.
  induction l as [|x l IH]; [reflexivity|].
  rewrite fmap_cons. simpl length. simpl replicate. f_equal; [|exact IH].
  destruct (fgt x (Binarize.thresh_low self)) eqn:Hx; [by rewrite Hx|].
  by rewrite H0.
Qed.

(** ** Binarize, then ApplyMask *)



Section binarize_then_mask.

Variables (self : Binarize.inputs) (runtime : runtime_t) (w : world) (f : nifti_file).
Variable thr : float64.
Hypothesis Hf : fs w !! Binarize.in_file self = Some f.

Let t : float64 := Binarize.thresh_low self.
Let out_mask : path :=
  fname_presuffix (Binarize.in_file self) "_mask" (Some (cwd runtime)).
Let w1 : world := snd (Binarize._run_interface self runtime w).
Let mask : nifti_file :=
  mk_file (mk_header uint8 (best_affine (f_hdr f)) (descrip (f_hdr f)))
    (mk_ndarray (shape (f_data f)) ((fun x => of_bool (fgt x t)) <$> flat (f_data f))).

Lemma binarize_then_files :
  Binarize._run_interface self runtime w = (inr tt, w1) /\
  fs w1 !! Binarize.in_file self = Some f /\
  fs w1 !! out_mask = Some mask.
Proof using Hf.
  unfold w1. rewrite (binarize_run self runtime w f Hf). split; [reflexivity|].
  cbn [snd fs]. split.
  - rewrite !lookup_insert_ne by (by apply presuffix_ne). exact Hf.
  - apply lookup_insert_eq.
Qed.

End binarize_then_mask.

(** X7. The mask that [Binarize] writes for an image of four or more axes
    has the image's shape, so [ApplyMask] refuses it for that very image with
    the size error, whatever the threshold. *)
Theorem binarize_mask_refused
    (self : Binarize.inputs) (runtime : runtime_t) (w : world) (f : nifti_file)
    (thr : float64) :
  fs w !! Binarize.in_file self = Some f ->
  4 <= ndim (f_data f) ->
  let out_mask :=
    fname_presuffix (Binarize.in_file self) "_mask" (Some (cwd runtime)) in
  exists w1,
    Binarize._run_interface self runtime w = (inr tt, w1) /\
    fst (ApplyMask._run_interface
           (ApplyMask.mk_inputs (Binarize.in_file self) out_mask thr) runtime w1)
    = inl ApplyMask.sizes_error.
Proof.
  intros Hf H4 out_mask.
  destruct (binarize_then_files self runtime w f Hf) as (Hrun & Hi & Hm).
  eexists. split; [exact Hrun|].
  rewrite (apply_mask_sizes
             (ApplyMask.mk_inputs (Binarize.in_file self) out_mask thr) runtime _
             f _ Hi Hm); [reflexivity|].
  cbn [f_data shape]. intros Heq. unfold ndim in H4.
  rewrite Heq, length_take in H4. lia.
Qed.


(** ** MergeSeries on short series *)

(** The errors of the loop of [MergeSeries]: a file that cannot be read, or
    the dimension error. *)
Lemma collect_errors (allow : bool) (w w' : world) (files : list path)
    (acc : list image) (e : exn) :
  MergeSeries.collect allow files acc w = (inl e, w') ->
  e = FileNotFoundError "No such file or no access" \/
  exists n, e = MergeSeries.dimension_error n.
Proof.
  revert acc. induction files as [|p rest IH]; intros acc H; [discriminate|].
  destruct (fs w !! p) as [f|] eqn:Hf.
  - rewrite (collect_cons _ _ _ _ _ _ Hf) in H. cbv zeta in H.
    destruct (_ =? 3); [by eapply IH|].
    destruct (ndim (dataobj (squeeze_image (image_of_file f))) =? 4) eqn:E4.
    + destruct allow; simpl in H; [|injection H as <- _; eauto].
      unfold four_to_three in H. rewrite E4 in H. simpl in H. by eapply IH.
    + rewrite andb_false_r in H. injection H as <- _. eauto.
  - rewrite (collect_missing _ _ _ _ _ Hf) in H. injection H as <- _. by left.
Qed.

(** X9. Without an input file [MergeSeries] raises a [TypeError]: the
    trait [in_files] then holds [Undefined], and the loop cannot iterate
    over it; the world is left as it was.  The error of [nb.concat_images]
    on an empty list is raised only when there are inputs, [allow_4D] is
    set, and every input has four axes once squeezed and no frame. *)
Theorem merge_no_input
    (self : MergeSeries.inputs) (runtime : runtime_t) (w : world) :
  (MergeSeries.in_files self = [] ->
   MergeSeries._run_interface self runtime w = (inl MergeSeries.undefined_error, w)) /\
  (forall w',
     MergeSeries._run_interface self runtime w =
       (inl (ValueError "Cannot concatenate an empty list of images."), w') ->
     MergeSeries.in_files self <> [] /\
     MergeSeries.allow_4D self = true /\
     Forall (fun p => exists f, fs w !! p = Some f /\
               let filenii := squeeze_image (image_of_file f) in
               ndim (dataobj filenii) = 4 /\ nth 3 (shape (dataobj filenii)) 0 = 0)
       (MergeSeries.in_files self)).
Proof.
  split.
  - intros Hin. rewrite merge_run, Hin. reflexivity.
  - intros w' Hrun. rewrite merge_run in Hrun.
    destruct (MergeSeries.in_files self) as [|f0 rest] eqn:Hin; [discriminate|].
    destruct (MergeSeries.collect _ _ _ w) as [[e|l] w1] eqn:Hc.
    { injection Hrun as -> _. exfalso.
      apply collect_errors in Hc as [Hc|[n Hc]]; [discriminate|].
      unfold MergeSeries.dimension_error in Hc. simpl in Hc. discriminate. }
    apply collect_frames in Hc as (groups & Hgroups & ->). simpl in Hrun.
    destruct (concat groups) as [|fr frs] eqn:Hcat.
    2:{ exfalso. unfold concat_images in Hrun.
        destruct (concat_check fr (fr :: frs)) as [e|] eqn:Hck; [|discriminate].
        apply concat_check_geometry in Hck.
        injection Hrun as -> _. by destruct Hck as [Hck|[Hck|Hck]]. }
    split; [discriminate|].
    assert (Hempty : Forall (fun g => g = []) groups).
    { clear -Hcat. induction groups as [|g groups IH]; [constructor|].
      simpl in Hcat. apply app_eq_nil in Hcat as [-> Hrest].
      constructor; [reflexivity|by apply IH]. }
    assert (Hall : Forall2 (fun p g => g = [] /\ exists f, fs w !! p = Some f /\
                      frames_from (MergeSeries.allow_4D self) (image_of_file f) g)
                     (f0 :: rest) groups).
    { clear -Hgroups Hempty. induction Hgroups as [|p g ps gs Hp _ IH];
        [constructor|].
      inversion Hempty; subst. constructor; [by split|by apply IH]. }
    assert (Hflag : MergeSeries.allow_4D self = true).
    { inversion Hall as [|p g ps gs (-> & f & _ & Hg) _]; subst.
      destruct Hg as [[_ ?]|(_ & Ha & _)]; [discriminate|exact Ha]. }
    split; [exact Hflag|].
    clear -Hall. induction Hall as [|p g ps gs (-> & f & Hf & Hg) _ IH];
      constructor; [|exact IH].
    exists f. split; [exact Hf|]. cbv zeta.
    destruct Hg as [[_ ?]|(H4 & _ & H43)]; [discriminate|].
    split; [exact H4|].
    pose proof (squeeze_image_coherent _ (image_of_file_coherent f)) as Hsc.
    rewrite (four_to_three_frames _ Hsc H4) in H43. injection H43 as H43.
    apply fmap_nil_inv in H43.
    destruct (nth 3 _ 0); [reflexivity|discriminate].
Qed.

Lemma squeeze_image_trailing_one (img : image) (s : list nat) :
  coherent img -> shape (dataobj img) = s ++ [1] -> length s = 3 ->
  squeeze_image img =
    mk_image (reshape (dataobj img) s) (arr_dtype img) (affine img) (hdr img).
Proof.
  intros Hco Hs H3. unfold squeeze_image. cbv zeta.
  rewrite !new_image_coherent by exact Hco.
  rewrite Hs, length_app, H3. simpl.
  rewrite take_app_length' by (by symmetry).
  rewrite drop_app_length' by (by symmetry). simpl.
  rewrite app_nil_r, H3. reflexivity.
Qed.

(** X10. A series of one volume does not come back: [MergeSeries] on a
    single 3-D file writes a 4-D file whose last axis has length 1, and
    [SplitSeries] squeezes that axis away and, without [accept_3D], raises the
    dimension error for a 3-D input. *)
Theorem merge_one_then_split
    (runtime : runtime_t) (w : world) (allow : bool) (pa : path) (fa : nifti_file) :
  fs w !! pa = Some fa ->
  ndim (f_data fa) = 3 ->
  let merged_path := fname_presuffix pa "_merged" None in
  exists w1 merged,
    MergeSeries._run_interface (MergeSeries.mk_inputs [pa] allow) runtime w
      = (inr tt, w1) /\
    fs w1 !! merged_path = Some merged /\
    shape (f_data merged) = shape (f_data fa) ++ [1] /\
    SplitSeries._run_interface (SplitSeries.mk_inputs merged_path false) runtime
      (mk_world (fs w1) ∅)
    = (inl (SplitSeries.dimension_error 3), mk_world (fs w1) ∅).
Proof.
  intros Ha H3 merged_path.
  assert (Hfiles : Forall2 (fun p f => fs w !! p = Some f) [pa] [fa])
    by (by repeat constructor).
  pose proof (merge_volumes runtime w allow pa [] fa [] Hfiles H3 (Forall_nil_2 _))
    as Hrun.
  do 2 eexists. split; [exact Hrun|]. cbn [fs].
  split; [apply lookup_insert_eq|].
  assert (Hshape : forall src tag,
            shape (stored_as src tag (stack_last (shape (f_data fa)) (f_data <$> [fa])))
            = shape (f_data fa) ++ [1]).
  { intros src tag. by rewrite stored_as_shape. }
  split; [apply Hshape|].
  unfold SplitSeries._run_interface.
  rewrite (split_run module_globals (SplitSeries.mk_inputs merged_path false) runtime
             _ _ (lookup_insert_eq _ _ _)).
  rewrite (squeeze_image_trailing_one _ (shape (f_data fa)));
    [|reflexivity|apply Hshape|exact H3].
  unfold ndim in *. cbn [dataobj reshape shape SplitSeries.accept_3D].
  rewrite H3. reflexivity.
Qed.




(** ** SplitSeries as the module stands *)

Lemma split_module_run (self : SplitSeries.inputs) (runtime : runtime_t) (w : world)
    (f : nifti_file) :
  fs w !! SplitSeries.in_file self = Some f ->
  let filenii := squeeze_image (image_of_file f) in
  SplitSeries._run_interface self runtime w =
    if negb (ndim (dataobj filenii) =? 4) then
      if SplitSeries.accept_3D self && (ndim (dataobj filenii) =? 3)
      then (inl path_name_error, w)
      else (inl (SplitSeries.dimension_error (ndim (dataobj filenii))), w)
    else
      match nth 3 (shape (dataobj filenii)) 0 with
      | 0 => (inr tt, mk_world (fs w) (<["out_files" := RList []]> (results w)))
      | S _ => (inl path_name_error,
                mk_world (fs w) (<["out_files" := RList []]> (results w)))
      end.
Proof.
  intros Hf filenii. unfold SplitSeries._run_interface.
  rewrite (split_run module_globals self runtime w f Hf). fold filenii.
  rewrite path_not_global.
  destruct (ndim (dataobj filenii) =? 4) eqn:E4; [|reflexivity].
  apply Nat.eqb_eq in E4. simpl negb. cbv iota.
  pose proof (squeeze_image_coherent _ (image_of_file_coherent f)) as Hsc.
  fold filenii in Hsc. rewrite (four_to_three_frames _ Hsc E4).
  by destruct (nth 3 _ 0).
Qed.

(** X13. As the module stands, [SplitSeries] never writes a file: whatever
    the input and the flag, and whether it raises or returns, the file system
    after the run is the one before. *)
Theorem split_never_writes
    (self : SplitSeries.inputs) (runtime : runtime_t) (w w' : world) (r : exn + unit) :
  SplitSeries._run_interface self runtime w = (r, w') -> fs w' = fs w.
Proof.
  destruct (fs w !! SplitSeries.in_file self) as [f|] eqn:Hf.
  - rewrite (split_module_run self runtime w f Hf). cbv zeta.
    destruct (negb _).
    + destruct (_ && _); by intros [= _ <-].
    + destruct (nth 3 _ 0); by intros [= _ <-].
  - unfold SplitSeries._run_interface, SplitSeries.run_with, bind, nb_load.
    rewrite Hf. by intros [= _ <-].
Qed.

(** X14. As the module stands, [SplitSeries] returns without raising only
    on an input file that has four axes once squeezed and no frame at all;
    it then records the empty list of outputs and writes nothing.  On every
    series with a frame it raises. *)
Theorem split_returns_only_without_frames
    (self : SplitSeries.inputs) (runtime : runtime_t) (w w' : world) :
  SplitSeries._run_interface self runtime w = (inr tt, w') ->
  exists f,
    fs w !! SplitSeries.in_file self = Some f /\
    ndim (dataobj (squeeze_image (image_of_file f))) = 4 /\
    nth 3 (shape (dataobj (squeeze_image (image_of_file f)))) 0 = 0 /\
    w' = mk_world (fs w) (<["out_files" := RList []]> (results w)).
Proof.
  destruct (fs w !! SplitSeries.in_file self) as [f|] eqn:Hf.
  - rewrite (split_module_run self runtime w f Hf). cbv zeta.
    destruct (ndim (dataobj (squeeze_image (image_of_file f))) =? 4) eqn:E4.
    + apply Nat.eqb_eq in E4. simpl negb. cbv iota.
      destruct (nth 3 _ 0) as [|k] eqn:Hk; [|discriminate].
      intros [= <-]. exists f. by repeat split.
    + simpl negb. cbv iota. destruct (_ && _); discriminate.
  - unfold SplitSeries._run_interface, SplitSeries.run_with, bind, nb_load.
    rewrite Hf. discriminate.
Qed.

(** ** Names shared by ApplyMask and Binarize *)

(** X16. [ApplyMask] and [Binarize] name their masked output alike: run
    on the same input in the same working directory, [Binarize] replaces the
    file that [ApplyMask] wrote by the file of its own thresholded image,
    which under a floating dtype tag holds the thresholded voxels as they
    are. *)
Theorem apply_mask_then_binarize
    (self : ApplyMask.inputs) (runtime : runtime_t) (w w1 : world)
    (fi : nifti_file) (t : float64) :
  fs w !! ApplyMask.in_file self = Some fi ->
  ApplyMask._run_interface self runtime w = (inr tt, w1) ->
  let out_file :=
    fname_presuffix (ApplyMask.in_file self) "_masked" (Some (cwd runtime)) in
  let thresholded :=
    mk_image
      (mk_ndarray (shape (f_data fi))
         ((fun x => if fgt x t then x else Fin 0) <$> flat (f_data fi)))
      float64_ (Some (best_affine (f_hdr fi))) (f_hdr fi) in
  exists masked w2,
    results w1 !! "out_file" = Some (RStr out_file) /\
    fs w1 !! out_file = Some masked /\
    Binarize._run_interface (Binarize.mk_inputs (ApplyMask.in_file self) t) runtime w1
      = (inr tt, w2) /\
    results w2 !! "out_file" = Some (RStr out_file) /\
    fs w2 !! out_file = Some (to_file thresholded) /\
    (is_float_dtype (data_dtype (f_hdr fi)) = true ->
     to_file thresholded = mk_file (f_hdr fi) (dataobj thresholded)).
Proof.
  intros Hi Hrun out_file thresholded.
  assert (Hi1 : fs w1 !! ApplyMask.in_file self = Some fi).
  { rewrite (apply_mask_keeps_image self runtime w w1 (inr tt) Hrun).
    exact Hi. }
  destruct (fs w !! ApplyMask.in_mask self) as [fm|] eqn:Hm.
  2:{ unfold ApplyMask._run_interface, bind, nb_load in Hrun.
      rewrite Hi, Hm in Hrun. discriminate. }
  rewrite (apply_mask_run self runtime w fi fm Hi Hm) in Hrun.
  destruct (negb (shape_eqb _ _)); [discriminate|].
  destruct (negb (allclose _ _)); [discriminate|].
  destruct (multiply _ _) as [e|data]; [discriminate|].
  injection Hrun as <-. cbn [fs results] in *.
  do 2 eexists. split; [apply lookup_insert_eq|].
  split; [apply lookup_insert_eq|].
  split.
  { apply (binarize_run (Binarize.mk_inputs (ApplyMask.in_file self) t) runtime _ fi).
    exact Hi1. }
  cbn [fs results Binarize.in_file Binarize.thresh_low]. split; [|split].
  - rewrite lookup_insert_ne by discriminate. apply lookup_insert_eq.
  - rewrite lookup_insert_ne
      by (intros E; by apply (presuffix_masked_ne_mask _ _ (eq_sym E))).
    apply lookup_insert_eq.
  - intros Hfl. by apply to_file_float.
Qed.

(** ** ApplyMask beyond four axes *)

(** X17. [ApplyMask] has no test on the number of axes.  For an image of
    five axes and a mask over its first three, both geometry tests pass and
    the mask is then aligned with the last three axes of the image: when the
    last axis of the image and the last axis of the mask differ and neither
    has length 1, the product raises numpy's broadcasting [ValueError], and
    nothing is written. *)
Theorem apply_mask_five_axes
    (self : ApplyMask.inputs) (runtime : runtime_t) (w : world)
    (fi fm : nifti_file) (a b c d e : nat) :
  fs w !! ApplyMask.in_file self = Some fi ->
  fs w !! ApplyMask.in_mask self = Some fm ->
  shape (f_data fi) = [a; b; c; d; e] ->
  shape (f_data fm) = [a; b; c] ->
  allclose (best_affine (f_hdr fi)) (best_affine (f_hdr fm)) = true ->
  e <> c -> e <> 1 -> c <> 1 ->
  ApplyMask._run_interface self runtime w =
    (inl (ValueError "operands could not be broadcast together"),
     mk_world (fs w)
       (<["out_file" :=
            RStr (fname_presuffix (ApplyMask.in_file self) "_masked" (Some (cwd runtime)))]>
          (results w))).
Proof.
  intros Hi Hm Hsi Hsm Hc Hec He Hc1.
  rewrite (apply_mask_run self runtime w fi fm Hi Hm).
  unfold shape_eqb. rewrite Hsi, Hsm.
  rewrite bool_decide_eq_true_2 by reflexivity. simpl negb. cbv iota.
  rewrite Hc. simpl negb. cbv iota.
  unfold ndim. rewrite Hsi, Hsm. simpl Nat.eqb. cbv iota.
  unfold multiply. cbn [shape greater]. rewrite Hsi, Hsm.
  unfold broadcast_shapes. simpl rev. simpl.
  unfold broadcast_dim.
  rewrite (proj2 (Nat.eqb_neq e c) Hec), (proj2 (Nat.eqb_neq e 1) He),
    (proj2 (Nat.eqb_neq c 1) Hc1).
  reflexivity.
Qed.

(** ** The flag of MergeSeries *)

Lemma collect_flag (w : world) (files : list path) (acc : list image) :
  Forall (fun p => forall f, fs w !! p = Some f ->
            ndim (dataobj (squeeze_image (image_of_file f))) <> 4) files ->
  MergeSeries.collect true files acc w = MergeSeries.collect false files acc w.
Proof.
  intros H. revert acc. induction H as [|p files Hp _ IH]; intros acc;
    [reflexivity|].
  destruct (fs w !! p) as [f|] eqn:Hf.
  - rewrite !(collect_cons _ w p files acc f Hf). cbv zeta.
    specialize (Hp f eq_refl).
    rewrite (proj2 (Nat.eqb_neq _ 4) Hp). simpl.
    destruct (_ =? 3); [apply IH|reflexivity].
  - by rewrite !(collect_missing _ w p files acc Hf).
Qed.

(** X18. [allow_4D] only matters for 4-D inputs: when no input file has
    four axes once squeezed, [MergeSeries] does the same with the flag set
    and unset, result and files. *)
Theorem merge_flag_only_for_4d
    (files : list path) (runtime : runtime_t) (w : world) :
  Forall (fun p => forall f, fs w !! p = Some f ->
            ndim (dataobj (squeeze_image (image_of_file f))) <> 4) files ->
  MergeSeries._run_interface (MergeSeries.mk_inputs files true) runtime w =
  MergeSeries._run_interface (MergeSeries.mk_inputs files false) runtime w.
Proof.
  intros H. rewrite !merge_run. cbn [MergeSeries.in_files MergeSeries.allow_4D].
  by rewrite (collect_flag w files [] H).
Qed.

End properties.

(** * Worked examples

    The statements above at concrete inputs, with the array writer
    [Examples.linear_scaling]. *)

#[global] Existing Instance Examples.linear_scaling.



Lemma apply_mask_raises_witness :
  let w_small :=
    Examples.world_of
      [(Examples.p_img, Examples.bold); (Examples.p_mask, Examples.brain_small)] in
  let w_4d :=
    Examples.world_of
      [(Examples.p_img, Examples.bold); (Examples.p_mask, Examples.brain4_shifted)] in
  let w_far :=
    Examples.world_of
      [(Examples.p_img, Examples.bold); (Examples.p_mask, Examples.brain_shifted)] in
  let recorded := <["out_file" := RStr (mk_path "/work" "bold_masked" ".nii.gz")]> ∅ in
  ApplyMask._run_interface Examples.mask_inputs Examples.rt w_small
    = (inl ApplyMask.sizes_error, mk_world (fs w_small) recorded) /\
  (allclose (best_affine (f_hdr Examples.bold))
            (best_affine (f_hdr Examples.brain4_shifted)) = false /\
   ApplyMask._run_interface Examples.mask_inputs Examples.rt w_4d
     = (inl ApplyMask.sizes_error, mk_world (fs w_4d) recorded)) /\
  ApplyMask._run_interface Examples.mask_inputs Examples.rt w_far
    = (inl ApplyMask.affines_error, mk_world (fs w_far) recorded).
Proof.
  intros w_small w_4d w_far recorded. split; [|split; [split; [reflexivity|]|]].
  - refine (proj1 (proj2 (apply_mask_raises Examples.mask_inputs Examples.rt w_small
                            Examples.bold Examples.brain_small eq_refl eq_refl)) _).
    simpl. discriminate.
  - refine (proj1 (proj2 (proj2 (apply_mask_raises Examples.mask_inputs Examples.rt w_4d
                                   Examples.bold Examples.brain4_shifted
                                   eq_refl eq_refl))) _).
    unfold ndim. simpl. lia.
  - refine (proj2 (proj2 (proj2 (apply_mask_raises Examples.mask_inputs Examples.rt w_far
                                   Examples.bold Examples.brain_shifted
                                   eq_refl eq_refl))) _ _); reflexivity.
Defined.

(** C3 fails as stated: [bold] and the 4-D mask [brain4_shifted] have the
    same first three axes and affines that are not close, and the error
    raised is the size error, not the affine error. *)
Lemma apply_mask_raises_counterexample :
  take 3 (shape (f_data Examples.bold))
    = take 3 (shape (f_data Examples.brain4_shifted)) /\
  allclose (best_affine (f_hdr Examples.bold))
           (best_affine (f_hdr Examples.brain4_shifted)) = false /\
  fst (ApplyMask._run_interface Examples.mask_inputs Examples.rt
         (Examples.world_of
            [(Examples.p_img, Examples.bold); (Examples.p_mask, Examples.brain4_shifted)]))
  = inl ApplyMask.sizes_error /\
  ApplyMask.sizes_error <> ApplyMask.affines_error.
Proof. repeat split; try reflexivity. discriminate. Qed.

Lemma apply_mask_refuses_4d_mask_witness :
  take 3 (shape (f_data Examples.bold)) = take 3 (shape (f_data Examples.brain4)) /\
  allclose (best_affine (f_hdr Examples.bold))
           (best_affine (f_hdr Examples.brain4)) = true /\
  ApplyMask._run_interface Examples.mask_inputs Examples.rt
    (Examples.world_of
       [(Examples.p_img, Examples.bold); (Examples.p_mask, Examples.brain4)])
  = (inl ApplyMask.sizes_error,
     mk_world
       (fs (Examples.world_of
              [(Examples.p_img, Examples.bold); (Examples.p_mask, Examples.brain4)]))
       (<["out_file" := RStr (mk_path "/work" "bold_masked" ".nii.gz")]> ∅)).
Proof.
  split; [reflexivity|]. split; [reflexivity|].
  apply (apply_mask_refuses_4d_mask Examples.mask_inputs Examples.rt
           (Examples.world_of
              [(Examples.p_img, Examples.bold); (Examples.p_mask, Examples.brain4)])
           Examples.bold Examples.brain4); reflexivity.
Defined.





Lemma merge_raises_witness :
  (exists n,
     MergeSeries._run_interface Examples.merge_ab Examples.rt
       (Examples.world_of
          [(Examples.p_a, Examples.vol_a); (Examples.p_b, Examples.vol_5d)])
     = (inl (MergeSeries.dimension_error n),
        Examples.world_of
          [(Examples.p_a, Examples.vol_a); (Examples.p_b, Examples.vol_5d)])) /\
  (exists e,
     geometry_error e /\
     MergeSeries._run_interface Examples.merge_ab Examples.rt
       (Examples.world_of
          [(Examples.p_a, Examples.vol_a); (Examples.p_b, Examples.vol_wide)])
     = (inl e,
        Examples.world_of
          [(Examples.p_a, Examples.vol_a); (Examples.p_b, Examples.vol_wide)])).
Proof.
  split.
  - refine (proj1 (merge_raises Examples.merge_ab Examples.rt
                     (Examples.world_of
                        [(Examples.p_a, Examples.vol_a); (Examples.p_b, Examples.vol_5d)])
                     _) _).
    + repeat constructor; eexists; reflexivity.
    + apply Exists_cons_tl, Exists_cons_hd. exists Examples.vol_5d.
      split; [reflexivity|]. right. simpl. unfold ndim. simpl. lia.
  - refine (proj1 (proj2 (merge_raises Examples.merge_ab Examples.rt
                            (Examples.world_of
                               [(Examples.p_a, Examples.vol_a);
                                (Examples.p_b, Examples.vol_wide)])
                            _)
                     [[squeeze_image (image_of_file Examples.vol_a)];
                      [squeeze_image (image_of_file Examples.vol_wide)]]
                     (squeeze_image (image_of_file Examples.vol_a))
                     [squeeze_image (image_of_file Examples.vol_wide)] _ _) _).
    + repeat constructor; eexists; reflexivity.
    + repeat constructor.
      * exists Examples.vol_a. split; [reflexivity|]. left. by split.
      * exists Examples.vol_wide. split; [reflexivity|]. left. by split.
    + reflexivity.
    + apply Exists_cons_hd. left. simpl. discriminate.
Defined.

(** C8 fails as stated: the affines of [vol_a] and [vol_b_nudged] differ by
    1e-9 in one entry; [np.allclose] holds of them, the shapes are equal, and
    [MergeSeries] raises the affine error of [nb.concat_images]. *)
Lemma merge_raises_counterexample :
  shape (f_data Examples.vol_a) = shape (f_data Examples.vol_b_nudged) /\
  allclose (best_affine (f_hdr Examples.vol_b_nudged))
           (best_affine (f_hdr Examples.vol_a)) = true /\
  allclose (best_affine (f_hdr Examples.vol_a))
           (best_affine (f_hdr Examples.vol_b_nudged)) = true /\
  MergeSeries._run_interface Examples.merge_ab Examples.rt
    (Examples.world_of
       [(Examples.p_a, Examples.vol_a); (Examples.p_b, Examples.vol_b_nudged)])
  = (inl concat_affine_error,
     Examples.world_of
       [(Examples.p_a, Examples.vol_a); (Examples.p_b, Examples.vol_b_nudged)]).
Proof. repeat split; reflexivity. Qed.

Lemma split_4d_name_error_witness :
  SplitSeries._run_interface Examples.split_bold Examples.rt
    (Examples.world_of [(Examples.p_img, Examples.bold)])
  = (inl (NameError "name 'Path' is not defined"),
     mk_world (fs (Examples.world_of [(Examples.p_img, Examples.bold)]))
       (<["out_files" := RList []]> ∅)).
Proof.
  apply (split_4d_name_error Examples.split_bold Examples.rt
           (Examples.world_of [(Examples.p_img, Examples.bold)]) Examples.bold).
  - reflexivity.
  - reflexivity.
  - simpl. lia.
Defined.

Lemma split_3d_or_other_witness :
  SplitSeries._run_interface (Examples.split_a false) Examples.rt
    (Examples.world_of [(Examples.p_a, Examples.vol_a)])
  = (inl (RuntimeError "Input image image is 3D."),
     Examples.world_of [(Examples.p_a, Examples.vol_a)]) /\
  SplitSeries._run_interface (Examples.split_a true) Examples.rt
    (Examples.world_of [(Examples.p_a, Examples.vol_a)])
  = (inl (NameError "name 'Path' is not defined"),
     Examples.world_of [(Examples.p_a, Examples.vol_a)]) /\
  SplitSeries._run_interface (Examples.split_a false) Examples.rt
    (Examples.world_of [(Examples.p_a, Examples.vol_5d)])
  = (inl (RuntimeError "Input image image is 5D."),
     Examples.world_of [(Examples.p_a, Examples.vol_5d)]).
Proof.
  split; [|split].
  - apply (proj1 (split_3d_or_other (Examples.split_a false) Examples.rt
                    (Examples.world_of [(Examples.p_a, Examples.vol_a)])
                    Examples.vol_a eq_refl)); reflexivity.
  - apply (proj1 (proj2 (split_3d_or_other (Examples.split_a true) Examples.rt
                    (Examples.world_of [(Examples.p_a, Examples.vol_a)])
                    Examples.vol_a eq_refl))); reflexivity.
  - apply (proj2 (proj2 (split_3d_or_other (Examples.split_a false) Examples.rt
                    (Examples.world_of [(Examples.p_a, Examples.vol_5d)])
                    Examples.vol_5d eq_refl))); simpl; unfold ndim; simpl; lia.
Defined.

Lemma roundtrip_name_error_witness :
  exists w1,
    MergeSeries._run_interface
      (MergeSeries.mk_inputs [Examples.p_a; Examples.p_b; Examples.p_c] true)
      Examples.rt
      (Examples.world_of
         [(Examples.p_a, Examples.vol_a); (Examples.p_b, Examples.vol_b);
          (Examples.p_c, Examples.vol_c)])
      = (inr tt, w1) /\
    SplitSeries._run_interface (SplitSeries.mk_inputs Examples.p_merged false)
      Examples.rt (mk_world (fs w1) ∅)
      = (inl (NameError "name 'Path' is not defined"),
         mk_world (fs w1) (<["out_files" := RList []]> ∅)).
Proof.
  apply (roundtrip_name_error Examples.rt
           (Examples.world_of
              [(Examples.p_a, Examples.vol_a); (Examples.p_b, Examples.vol_b);
               (Examples.p_c, Examples.vol_c)])
           true false Examples.p_a Examples.p_b Examples.p_c
           Examples.vol_a Examples.vol_b Examples.vol_c); reflexivity.
Defined.

Lemma no_write_on_error_witness :
  fs (snd (ApplyMask._run_interface Examples.mask_inputs Examples.rt
             (Examples.world_of
                [(Examples.p_img, Examples.bold); (Examples.p_mask, Examples.brain_small)])))
  = fs (Examples.world_of
          [(Examples.p_img, Examples.bold); (Examples.p_mask, Examples.brain_small)]) /\
  fs (snd (Binarize._run_interface Examples.binarize_inputs Examples.rt
             (Examples.world_of [(Examples.p_a, Examples.vol_a)])))
  = fs (Examples.world_of [(Examples.p_a, Examples.vol_a)]) /\
  fs (snd (SplitSeries.run_with module_globals Examples.split_bold Examples.rt
             (Examples.world_of [(Examples.p_img, Examples.bold)])))
  = fs (Examples.world_of [(Examples.p_img, Examples.bold)]) /\
  fs (snd (MergeSeries._run_interface Examples.merge_ab Examples.rt
             (Examples.world_of
                [(Examples.p_a, Examples.vol_a); (Examples.p_b, Examples.vol_wide)])))
  = fs (Examples.world_of
          [(Examples.p_a, Examples.vol_a); (Examples.p_b, Examples.vol_wide)]).
Proof.
  destruct no_write_on_error as (Hmask & Hbin & Hsplit & Hmerge).
  split; [|split; [|split]].
  - apply (Hmask Examples.mask_inputs Examples.rt _ ApplyMask.sizes_error).
    reflexivity.
  - apply (Hbin Examples.binarize_inputs Examples.rt _
             (FileNotFoundError "No such file or no access")).
    reflexivity.
  - apply (Hsplit module_globals Examples.split_bold Examples.rt _ path_name_error).
    reflexivity.
  - apply (Hmerge Examples.merge_ab Examples.rt _ concat_shape_error).
    reflexivity.
Defined.


Lemma inputs_not_overwritten_witness :
  let w1 := Examples.world_of
              [(Examples.p_img, Examples.bold); (Examples.p_mask, Examples.brain)] in
  let w2 := Examples.world_of [(Examples.p_img, Examples.bold)] in
  let w3 := Examples.world_of
              [(Examples.p_a, Examples.vol_a); (Examples.p_b, Examples.vol_b)] in
  fs (snd (ApplyMask._run_interface Examples.mask_inputs Examples.rt w1))
    !! Examples.p_img = fs w1 !! Examples.p_img /\
  fs (snd (Binarize._run_interface Examples.binarize_inputs Examples.rt w2))
    !! Examples.p_img = fs w2 !! Examples.p_img /\
  fs (snd (MergeSeries._run_interface Examples.merge_ab Examples.rt w3))
    !! Examples.p_a = fs w3 !! Examples.p_a.
Proof.
  intros w1 w2 w3.
  destruct inputs_not_overwritten as (Hmask & Hbin & Hmerge).
  split; [|split].
  - apply (Hmask Examples.mask_inputs Examples.rt w1
             (fst (ApplyMask._run_interface Examples.mask_inputs Examples.rt w1))).
    apply surjective_pairing.
  - apply (Hbin Examples.binarize_inputs Examples.rt w2
             (fst (Binarize._run_interface Examples.binarize_inputs Examples.rt w2))).
    apply surjective_pairing.
  - apply (Hmerge Examples.merge_ab Examples.rt w3
             (fst (MergeSeries._run_interface Examples.merge_ab Examples.rt w3))).
    + apply surjective_pairing.
    + reflexivity.
Defined.

Lemma binarize_masked_voxels_witness :
  exists masked,
    fs (snd (Binarize._run_interface Examples.binarize_inputs Examples.rt
               (Examples.world_of [(Examples.p_img, MoreExamples.vol_signed)])))
      !! Examples.p_masked = Some masked /\
    length (flat (f_data masked)) = 4 /\
    Forall (fun y => y <> NaN /\ (fgt y (Fin (7 # 2)) = true \/ y = Fin 0))
      (flat (f_data masked)).
Proof.
  apply (binarize_masked_voxels Examples.binarize_inputs Examples.rt
           (Examples.world_of [(Examples.p_img, MoreExamples.vol_signed)])
           MoreExamples.vol_signed); reflexivity.
Defined.

Lemma binarize_twice_witness :
  exists masked mask w1 w2,
    Binarize._run_interface Examples.binarize_inputs Examples.rt
      (Examples.world_of [(Examples.p_img, Examples.bold)]) = (inr tt, w1) /\
    fs w1 !! Examples.p_masked = Some masked /\
    fs w1 !! Examples.p_binmask = Some mask /\
    Binarize._run_interface MoreExamples.binarize_again Examples.rt w1 = (inr tt, w2) /\
    fs w2 !! MoreExamples.p_masked_twice = Some masked /\
    fs w2 !! MoreExamples.p_masked_mask = Some mask.
Proof.
  apply (binarize_twice Examples.binarize_inputs Examples.rt
           (Examples.world_of [(Examples.p_img, Examples.bold)]) Examples.bold);
    reflexivity.
Defined.

Lemma binarize_twice_negative_witness :
  exists w1 w2 mask2,
    Binarize._run_interface MoreExamples.binarize_negative Examples.rt
      (Examples.world_of [(Examples.p_img, MoreExamples.vol_signed)]) = (inr tt, w1) /\
    Binarize._run_interface MoreExamples.binarize_negative_again Examples.rt w1
      = (inr tt, w2) /\
    fs w2 !! MoreExamples.p_masked_mask = Some mask2 /\
    shape (f_data mask2) = [2; 1; 1; 2] /\
    flat (f_data mask2) = [Fin 1; Fin 1; Fin 1; Fin 1].
Proof.
  apply (binarize_twice_negative MoreExamples.binarize_negative Examples.rt
           (Examples.world_of [(Examples.p_img, MoreExamples.vol_signed)])
           MoreExamples.vol_signed); reflexivity.
Defined.

Lemma binarize_mask_refused_witness :
  exists w1,
    Binarize._run_interface Examples.binarize_inputs Examples.rt
      (Examples.world_of [(Examples.p_img, Examples.bold)]) = (inr tt, w1) /\
    fst (ApplyMask._run_interface
           (MoreExamples.mask_with_binarized Examples.p_img "bold_mask" ".nii.gz")
           Examples.rt w1)
    = inl (ValueError "Image and mask sizes do not match.").
Proof.
  apply (binarize_mask_refused Examples.binarize_inputs Examples.rt
           (Examples.world_of [(Examples.p_img, Examples.bold)]) Examples.bold
           (Fin (1 # 2))).
  - reflexivity.
  - unfold ndim. simpl. lia.
Defined.


Lemma merge_no_input_witness :
  MergeSeries._run_interface MoreExamples.merge_nothing Examples.rt
    (Examples.world_of [(Examples.p_a, Examples.vol_a)])
  = (inl (TypeError "'_Undefined' object is not iterable"),
     Examples.world_of [(Examples.p_a, Examples.vol_a)]).
Proof.
  apply (proj1 (merge_no_input MoreExamples.merge_nothing Examples.rt
                  (Examples.world_of [(Examples.p_a, Examples.vol_a)]))).
  reflexivity.
Defined.

Lemma merge_one_then_split_witness :
  exists w1 merged,
    MergeSeries._run_interface MoreExamples.merge_a Examples.rt
      (Examples.world_of [(Examples.p_a, Examples.vol_a)]) = (inr tt, w1) /\
    fs w1 !! Examples.p_merged = Some merged /\
    shape (f_data merged) = [2; 1; 1; 1] /\
    SplitSeries._run_interface (SplitSeries.mk_inputs Examples.p_merged false)
      Examples.rt (mk_world (fs w1) ∅)
    = (inl (RuntimeError "Input image image is 3D."), mk_world (fs w1) ∅).
Proof.
  apply (merge_one_then_split Examples.rt
           (Examples.world_of [(Examples.p_a, Examples.vol_a)]) true
           Examples.p_a Examples.vol_a); reflexivity.
Defined.



Lemma split_never_writes_witness :
  fs (snd (SplitSeries._run_interface MoreExamples.split_accepting Examples.rt
             (Examples.world_of [(Examples.p_img, Examples.bold)])))
  = fs (Examples.world_of [(Examples.p_img, Examples.bold)]) /\
  fs (snd (SplitSeries._run_interface MoreExamples.split_accepting Examples.rt
             (Examples.world_of [(Examples.p_img, MoreExamples.vol_empty)])))
  = fs (Examples.world_of [(Examples.p_img, MoreExamples.vol_empty)]).
Proof.
  split.
  - apply (split_never_writes MoreExamples.split_accepting Examples.rt _ _
             (fst (SplitSeries._run_interface MoreExamples.split_accepting Examples.rt
                     (Examples.world_of [(Examples.p_img, Examples.bold)])))).
    apply surjective_pairing.
  - apply (split_never_writes MoreExamples.split_accepting Examples.rt _ _
             (fst (SplitSeries._run_interface MoreExamples.split_accepting Examples.rt
                     (Examples.world_of [(Examples.p_img, MoreExamples.vol_empty)])))).
    apply surjective_pairing.
Defined.

Lemma split_returns_only_without_frames_witness :
  let w0 := Examples.world_of [(Examples.p_a, MoreExamples.vol_empty)] in
  SplitSeries._run_interface (Examples.split_a true) Examples.rt w0
    = (inr tt, mk_world (fs w0) (<["out_files" := RList []]> ∅)) /\
  exists f,
    fs w0 !! Examples.p_a = Some f /\
    ndim (dataobj (squeeze_image (image_of_file f))) = 4 /\
    nth 3 (shape (dataobj (squeeze_image (image_of_file f)))) 0 = 0.
Proof.
  intros w0. split; [reflexivity|].
  destruct (split_returns_only_without_frames (Examples.split_a true) Examples.rt w0
              (mk_world (fs w0) (<["out_files" := RList []]> ∅)) eq_refl)
    as (f & Hf & H4 & H0 & _).
  exists f. split; [exact Hf|]. split; [exact H4 | exact H0].
Defined.

Lemma apply_mask_then_binarize_witness :
  exists masked w2,
    results
      (snd (ApplyMask._run_interface Examples.mask_inputs Examples.rt
              (Examples.world_of
                 [(Examples.p_img, Examples.bold); (Examples.p_mask, Examples.brain)])))
      !! "out_file" = Some (RStr Examples.p_masked) /\
    fs (snd (ApplyMask._run_interface Examples.mask_inputs Examples.rt
               (Examples.world_of
                  [(Examples.p_img, Examples.bold); (Examples.p_mask, Examples.brain)])))
      !! Examples.p_masked = Some masked /\
    Binarize._run_interface Examples.binarize_inputs Examples.rt
      (snd (ApplyMask._run_interface Examples.mask_inputs Examples.rt
              (Examples.world_of
                 [(Examples.p_img, Examples.bold); (Examples.p_mask, Examples.brain)])))
      = (inr tt, w2) /\
    results w2 !! "out_file" = Some (RStr Examples.p_masked) /\
    fs w2 !! Examples.p_masked =
      Some (mk_file Examples.hdr_id
              (mk_ndarray [2; 1; 1; 2] [Fin 0; Fin 4; Fin 5; PInf])).
Proof.
  destruct (apply_mask_then_binarize Examples.mask_inputs Examples.rt
              (Examples.world_of
                 [(Examples.p_img, Examples.bold); (Examples.p_mask, Examples.brain)])
              _ Examples.bold (Fin (7 # 2)) eq_refl eq_refl)
    as (masked & w2 & H1 & H2 & H3 & H4 & H5 & _).
  exists masked, w2. split; [exact H1|]. split; [exact H2|]. split; [exact H3|].
  split; [exact H4 | exact H5].
Defined.

Lemma apply_mask_five_axes_witness :
  ApplyMask._run_interface Examples.mask_inputs Examples.rt
    (Examples.world_of
       [(Examples.p_img, MoreExamples.vol_5d_wide);
        (Examples.p_mask, MoreExamples.brain_212)])
  = (inl (ValueError "operands could not be broadcast together"),
     mk_world
       (fs (Examples.world_of
              [(Examples.p_img, MoreExamples.vol_5d_wide);
               (Examples.p_mask, MoreExamples.brain_212)]))
       (<["out_file" := RStr Examples.p_masked]> ∅)).
Proof.
  apply (apply_mask_five_axes Examples.mask_inputs Examples.rt
           (Examples.world_of
              [(Examples.p_img, MoreExamples.vol_5d_wide);
               (Examples.p_mask, MoreExamples.brain_212)])
           MoreExamples.vol_5d_wide MoreExamples.brain_212 2 1 2 1 3);
    try reflexivity; lia.
Defined.

Lemma merge_flag_only_for_4d_witness :
  MergeSeries._run_interface
    (MergeSeries.mk_inputs [Examples.p_a; Examples.p_b] true) Examples.rt
    (Examples.world_of
       [(Examples.p_a, Examples.vol_a); (Examples.p_b, Examples.vol_5d)])
  = MergeSeries._run_interface
      (MergeSeries.mk_inputs [Examples.p_a; Examples.p_b] false) Examples.rt
      (Examples.world_of
         [(Examples.p_a, Examples.vol_a); (Examples.p_b, Examples.vol_5d)]).
Proof.
  apply (merge_flag_only_for_4d [Examples.p_a; Examples.p_b] Examples.rt
           (Examples.world_of
              [(Examples.p_a, Examples.vol_a); (Examples.p_b, Examples.vol_5d)])).
  repeat constructor.
  - intros f Hf. assert (f = Examples.vol_a) as -> by (by inversion Hf).
    unfold ndim. simpl. lia.
  - intros f Hf. assert (f = Examples.vol_5d) as -> by (by inversion Hf).
    unfold ndim. simpl. lia.
Defined.
